(** * Serial command front end of the Bioloid C controller (serial.c)

    A shallow embedding of [serial.c]: the receive ring buffer
    ([serial_get_qstate], [serial_put_queue], [serial_get_queue]), the
    transmit helpers ([serial_write], [std_putchar]), the receive interrupt
    routine ([USART1_RX_vect]) and the polled command dispatcher
    ([SerialReceiveCommand]).

    Conventions of the embedding.
    - A C [unsigned char] / [uint8] is a [Z] in [0, 255]; every store of a
      wider value into such a variable writes the reduction modulo 256
      ([to_uint8]).  Plain [char] is the unsigned 8-bit type (the project
      is built with unsigned plain chars, as the comparisons of [char]
      variables with [0xFF] in the dispatcher require).
    - The constants of the absent header [global.h] are parameters of the
      development: [MAXNUM_SERIALBUFF], [NUMBER_OF_COMMANDS],
      [COMMAND_NOT_FOUND] and [COMMAND_MOTIONPAGE].
    - The transmit data register is modelled by the list of bytes written
      to it so far, oldest first. *)

From Stdlib Require Import ZArith String Ascii Lia.
From stdpp Require Import base list.

Local Open Scope Z_scope.

(** ** Bytes and C strings *)

Definition to_uint8 (x : Z) : Z := x mod 256.

(** ASCII codes of a string literal, without the terminating NUL. *)
Definition bytes_of_string (s : string) : list Z :=
  List.map (fun a => Z.of_N (N_of_ascii a)) (list_ascii_of_string s).

(** [strcmp] on NUL-terminated strings.  A string is given by the bytes
    that precede its terminator in memory; the end of the list stands for
    the NUL byte, and a NUL inside the list ends the string early, as it
    does in C. *)
Fixpoint strcmp (s1 s2 : list Z) : Z :=
  match s1, s2 with
  | [], [] => 0
  | [], b :: _ => 0 - b
  | a :: _, [] => a
  | a :: r1, b :: r2 =>
      if a =? b then (if a =? 0 then 0 else strcmp r1 r2) else a - b
  end.

(** ** The receive ring buffer *)

Record ring : Type := mkRing {
  gbSerialBuffer     : list Z;
  gbSerialBufferHead : Z;
  gbSerialBufferTail : Z
}.

(** The globals of the module: the ring buffer, the shared command state
    (lines 56-60) and the bytes written to the transmit register [UDR1]. *)
Record state : Type := mkState {
  queue                : ring;
  bioloid_command      : Z;
  last_bioloid_command : Z;
  flag_receive_ready   : Z;
  current_motion_page  : Z;
  last_motion_page     : Z;
  UDR1_sent            : list Z
}.

Definition set_queue (q : ring) (st : state) : state :=
  mkState q (bioloid_command st) (last_bioloid_command st)
          (flag_receive_ready st) (current_motion_page st)
          (last_motion_page st) (UDR1_sent st).

Definition set_bioloid_command (v : Z) (st : state) : state :=
  mkState (queue st) v (last_bioloid_command st)
          (flag_receive_ready st) (current_motion_page st)
          (last_motion_page st) (UDR1_sent st).

Definition set_last_bioloid_command (v : Z) (st : state) : state :=
  mkState (queue st) (bioloid_command st) v
          (flag_receive_ready st) (current_motion_page st)
          (last_motion_page st) (UDR1_sent st).

Definition set_flag_receive_ready (v : Z) (st : state) : state :=
  mkState (queue st) (bioloid_command st) (last_bioloid_command st)
          v (current_motion_page st)
          (last_motion_page st) (UDR1_sent st).

Definition set_current_motion_page (v : Z) (st : state) : state :=
  mkState (queue st) (bioloid_command st) (last_bioloid_command st)
          (flag_receive_ready st) v
          (last_motion_page st) (UDR1_sent st).

Definition set_last_motion_page (v : Z) (st : state) : state :=
  mkState (queue st) (bioloid_command st) (last_bioloid_command st)
          (flag_receive_ready st) (current_motion_page st)
          v (UDR1_sent st).

Definition set_UDR1_sent (v : list Z) (st : state) : state :=
  mkState (queue st) (bioloid_command st) (last_bioloid_command st)
          (flag_receive_ready st) (current_motion_page st)
          (last_motion_page st) v.

(** Command strings list (lines 23-47). *)
Definition COMMANDSTR_POINTER : list (list Z) :=
  List.map bytes_of_string
    [ "STOP"; "WF  "; "WB  "; "WLT "; "WRT "; "WLS "; "WRS "; "WFLS";
      "WFRS"; "WBLS"; "WBRS"; "WAL "; "WAR "; "WFLT"; "WFRT"; "WBLT";
      "WBRT"; "SIT "; "BAL "; "M   " ]%string.

(** [strcpy_P(buffer, pgm_read_word(&COMMANDSTR_POINTER[i]))]: the string
    of table entry [i].  The table has 20 entries; a read past its end is
    undefined in C and yields the empty string here, the results below
    assume [NUMBER_OF_COMMANDS <= 20] wherever the scan is involved. *)
Definition command_string (i : Z) : list Z :=
  COMMANDSTR_POINTER !!! Z.to_nat i.

(** [toupper] of the C library on an 8-bit character code. *)
Definition toupper (c : Z) : Z :=
  if (97 <=? c) && (c <=? 122) then c - 32 else c.

(** *** Transmit helpers (lines 241-252 and 336-353) *)

(** [serial_write]: every byte of [pData] is stored to [UDR1] in turn,
    each once the data register is empty. *)
Definition serial_write (pData : list Z) (sent : list Z) : list Z :=
  sent ++ pData.

(** [std_putchar]: newline is replaced with CR+LF. *)
Definition std_putchar (c : Z) (sent : list Z) : list Z :=
  if c =? 10 then serial_write [13; 10] sent
  else serial_write [c] sent.

(** [printf] on the device opened with [std_putchar]: the formatted
    characters go out one by one through [std_putchar]. *)
Definition printf (formatted : list Z) (sent : list Z) : list Z :=
  fold_left (fun s c => std_putchar c s) formatted sent.

(** The [%i] conversion for a non-negative [int] (the arguments printed by
    the dispatcher are promoted [uint8] values, at most three digits). *)
Fixpoint dec_digits (fuel : nat) (n : Z) (acc : list Z) : list Z :=
  match fuel with
  | O => acc
  | S fuel' =>
      let acc' := (48 + n mod 10) :: acc in
      if n / 10 =? 0 then acc' else dec_digits fuel' (n / 10) acc'
  end.

Definition format_int (n : Z) : list Z := dec_digits 5 n [].

Section WithConstants.

(** Constants of [global.h]. *)
Variable MAXNUM_SERIALBUFF  : Z.
Variable NUMBER_OF_COMMANDS : Z.
Variable COMMAND_NOT_FOUND  : Z.
Variable COMMAND_MOTIONPAGE : Z.

(** *** Queue primitives (lines 276-332) *)

(** [serial_get_qstate]: number of bytes in the buffer. *)
Definition serial_get_qstate (q : ring) : Z :=
  if gbSerialBufferHead q =? gbSerialBufferTail q then 0
  else if gbSerialBufferHead q <? gbSerialBufferTail q then
    gbSerialBufferTail q - gbSerialBufferHead q
  else
    MAXNUM_SERIALBUFF - (gbSerialBufferHead q - gbSerialBufferTail q).

(** [serial_put_queue]: the byte is ignored when the buffer is full.
    The indices are [unsigned char]s, so the increment wraps at 256; a
    store past the end of the array (excluded by [ring_ok] below) is
    dropped by the list update. *)
Definition serial_put_queue (data : Z) (q : ring) : ring :=
  if serial_get_qstate q =? MAXNUM_SERIALBUFF - 1 then q
  else
    let buf := <[Z.to_nat (gbSerialBufferTail q) := data]> (gbSerialBuffer q) in
    if gbSerialBufferTail q =? MAXNUM_SERIALBUFF - 1 then
      mkRing buf (gbSerialBufferHead q) 0
    else
      mkRing buf (gbSerialBufferHead q) (to_uint8 (gbSerialBufferTail q + 1)).

(** [serial_get_queue]: returns [0xff] when the buffer is empty. *)
Definition serial_get_queue (q : ring) : Z * ring :=
  if gbSerialBufferHead q =? gbSerialBufferTail q then (255, q)
  else
    let data := gbSerialBuffer q !!! Z.to_nat (gbSerialBufferHead q) in
    if gbSerialBufferHead q =? MAXNUM_SERIALBUFF - 1 then
      (data, mkRing (gbSerialBuffer q) 0 (gbSerialBufferTail q))
    else
      (data, mkRing (gbSerialBuffer q)
                    (to_uint8 (gbSerialBufferHead q + 1))
                    (gbSerialBufferTail q)).

(** *** Receive interrupt (lines 70-93) *)

(** [USART1_RX_vect], run once for the byte [udr] read from [UDR1]. *)
Definition USART1_RX_vect (udr : Z) (st : state) : state :=
  let c := udr in
  if c =? 13 then
    let st := set_flag_receive_ready 1 st in
    let st := set_queue (serial_put_queue 255 (queue st)) st in
    let c := 10 in
    let st := set_UDR1_sent (std_putchar c (UDR1_sent st)) st in
    set_UDR1_sent (std_putchar 32 (UDR1_sent st)) st
  else
    let st := set_queue (serial_put_queue c (queue st)) st in
    set_UDR1_sent (std_putchar c (UDR1_sent st)) st.

(** The interrupt routine run for each byte of [bytes] in arrival order. *)
Definition receive (bytes : list Z) (st : state) : state :=
  fold_left (fun s b => USART1_RX_vect b s) bytes st.

(** *** Command dispatcher (lines 149-237) *)

(** Lines 161-179: the four characters of the command and the extra read
    that flushes the queue. *)
Definition read_command (q : ring) : Z * Z * Z * Z * ring :=
  let '(c1, q) := serial_get_queue q in
  let c1 := if (97 <=? c1) && (c1 <=? 122) then toupper c1 else c1 in
  let '(c2, q) := serial_get_queue q in
  let c2 := if (97 <=? c2) && (c2 <=? 122) then toupper c2 else c2 in
  let c2 := if c2 =? 255 then 32 else c2 in
  let '(c3, q) := serial_get_queue q in
  let c3 := if (97 <=? c3) && (c3 <=? 122) then toupper c3 else c3 in
  let c3 := if c3 =? 255 then 32 else c3 in
  let '(c4, q) := serial_get_queue q in
  let c4 := if (97 <=? c4) && (c4 <=? 122) then toupper c4 else c4 in
  let c4 := if c4 =? 255 then 32 else c4 in
  let '(_, q) := serial_get_queue q in
  (c1, c2, c3, c4, q).

(** Lines 182-200: the loop over all known commands, entered at index [i]
    with [n] iterations left.  The loop runs [NUMBER_OF_COMMANDS] times
    unless a match breaks it ([uint8 i] does not wrap below 256). *)
Fixpoint command_loop (n : nat) (i : Z) (command : list Z) (st : state)
  : state :=
  match n with
  | O => st
  | S n' =>
      let buffer := command_string i in
      let match_ := strcmp buffer command in
      if match_ =? 0 then
        let st := set_last_bioloid_command (bioloid_command st) st in
        set_bioloid_command i st
      else
        let st :=
          if i =? NUMBER_OF_COMMANDS - 1
          then set_bioloid_command (to_uint8 COMMAND_NOT_FOUND) st
          else st in
        command_loop n' (to_uint8 (i + 1)) command st
  end.

(** Lines 203-224: the special case of the Motion Page command. *)
Definition motion_page_case (c1 c2 c3 c4 : Z) (st : state) : state :=
  if bioloid_command st =? COMMAND_NOT_FOUND then
    if (c1 =? 77) && ((48 <=? c2) && (c2 <=? 57)) then
      let st := set_bioloid_command (to_uint8 COMMAND_MOTIONPAGE) st in
      let st := set_last_motion_page (current_motion_page st) st in
      let st := set_current_motion_page (to_uint8 (c2 - 48)) st in
      let st :=
        if (48 <=? c3) && (c3 <=? 57) then
          let st := set_current_motion_page
                      (to_uint8 (current_motion_page st * 10)) st in
          set_current_motion_page
            (to_uint8 (current_motion_page st + (c3 - 48))) st
        else st in
      if (48 <=? c4) && (c4 <=? 57) then
        let st := set_current_motion_page
                    (to_uint8 (current_motion_page st * 10)) st in
        set_current_motion_page
          (to_uint8 (current_motion_page st + (c4 - 48))) st
      else st
    else st
  else st.

(** Lines 230-236: echo of the command and new command prompt. *)
Definition acknowledge (c1 c2 c3 c4 : Z) (st : state) : state :=
  let out :=
    if bioloid_command st =? COMMAND_MOTIONPAGE then
      [c1; c2; c3; c4] ++ bytes_of_string " - MotionPageCommand "
        ++ format_int (current_motion_page st) ++ [10]
        ++ bytes_of_string "> "
    else if negb (bioloid_command st =? COMMAND_NOT_FOUND) then
      [c1; c2; c3; c4] ++ bytes_of_string " - Command # "
        ++ format_int (bioloid_command st) ++ [10]
        ++ bytes_of_string "> "
    else
      [c1; c2; c3; c4] ++ bytes_of_string " " ++ [10]
        ++ bytes_of_string "Unknown Command! " ++ [10]
        ++ bytes_of_string "> " in
  set_UDR1_sent (printf out (UDR1_sent st)) st.

(** [SerialReceiveCommand], one poll from the main loop. *)
Definition SerialReceiveCommand (st : state) : state :=
  if flag_receive_ready st =? 0 then st
  else
    let '(c1, c2, c3, c4, q) := read_command (queue st) in
    let st := set_queue q st in
    let command := [c1; c2; c3; c4] in
    let st := command_loop (Z.to_nat NUMBER_OF_COMMANDS) 0 command st in
    let st := motion_page_case c1 c2 c3 c4 st in
    let st := set_flag_receive_ready 0 st in
    acknowledge c1 c2 c3 c4 st.

(** ** Specification-level notions *)

(** Well-formed ring: the storage has [MAXNUM_SERIALBUFF] slots and both
    indices point into it. *)
Definition ring_ok (q : ring) : Prop :=
  Z.of_nat (length (gbSerialBuffer q)) = MAXNUM_SERIALBUFF /\
  0 <= gbSerialBufferHead q < MAXNUM_SERIALBUFF /\
  0 <= gbSerialBufferTail q < MAXNUM_SERIALBUFF.

(** The bytes waiting in the ring, oldest first: the occupied run from the
    head index, taken cyclically. *)
Definition contents (q : ring) : list Z :=
  List.map
    (fun j => gbSerialBuffer q !!!
                Z.to_nat ((gbSerialBufferHead q + Z.of_nat j)
                            mod MAXNUM_SERIALBUFF))
    (seq 0 (Z.to_nat (serial_get_qstate q))).

(** Pushing a list of bytes, first byte first. *)
Definition push_all (ds : list Z) (q : ring) : ring :=
  fold_left (fun r d => serial_put_queue d r) ds q.

(** Queue operations issued by a client, and what a client observes of
    each: a push is accepted unless the occupied count stands at
    [MAXNUM_SERIALBUFF - 1] when it is issued; a pop succeeds unless the
    occupied count is then zero. *)
Inductive op : Type :=
| Push (b : Z)
| Pop.

Inductive event : Type :=
| Accepted (b : Z)
| Rejected (b : Z)
| Popped (b : Z)
| WasEmpty.

Fixpoint run (ops : list op) (q : ring) : list event * ring :=
  match ops with
  | [] => ([], q)
  | Push b :: rest =>
      let ev := if serial_get_qstate q =? MAXNUM_SERIALBUFF - 1
                then Rejected b else Accepted b in
      let '(evs, q') := run rest (serial_put_queue b q) in
      (ev :: evs, q')
  | Pop :: rest =>
      let n := serial_get_qstate q in
      let '(b, q1) := serial_get_queue q in
      let ev := if n =? 0 then WasEmpty else Popped b in
      let '(evs, q') := run rest q1 in
      (ev :: evs, q')
  end.

Fixpoint accepted_bytes (evs : list event) : list Z :=
  match evs with
  | [] => []
  | Accepted b :: r => b :: accepted_bytes r
  | _ :: r => accepted_bytes r
  end.

Fixpoint popped_bytes (evs : list event) : list Z :=
  match evs with
  | [] => []
  | Popped b :: r => b :: popped_bytes r
  | _ :: r => popped_bytes r
  end.

(** Value of a decimal numeral given by its digits, most significant
    first. *)
Definition decimal (ds : list Z) : Z :=
  fold_left (fun acc d => 10 * acc + d) ds 0.


(** The two normalisation steps of the dispatcher, named for the
    statements below: case folding (lines 162, 165, 169, 173) and blank
    padding (lines 166, 170, 174). *)
Definition fold_upper (c : Z) : Z :=
  if (97 <=? c) && (c <=? 122) then toupper c else c.

Definition blank_pad (c : Z) : Z :=
  if c =? 255 then 32 else c.

(** The zeroed globals of a freshly started device, with nothing sent on
    the line yet: a storage of [MAXNUM_SERIALBUFF] zero bytes, both
    indices, the command variables and the flag at 0.  The call of
    [serial_init] itself is [serial_init_call] below: on these globals it
    changes nothing but the line, to which it sends the byte [0xFF]
    (lemma [serial_init_on_zeroed_globals]); the states built from this one
    log the bytes sent after that byte. *)
Definition serial_init : state :=
  mkState (mkRing (replicate (Z.to_nat MAXNUM_SERIALBUFF) 0) 0 0)
          0 0 0 0 0 [].


(** ** The remaining entry points of [serial.c] *)

(** Lines 268-269 of [serial_read]: the copy loop, entered with index
    [count] and [n] iterations left.  A store past the end of the caller's
    array is dropped by the list update. *)
Fixpoint serial_read_loop (n : nat) (count : Z) (pData : list Z) (q : ring)
  : list Z * ring :=
  match n with
  | O => (pData, q)
  | S n' =>
      let '(d, q) := serial_get_queue q in
      let pData := <[Z.to_nat count := d]> pData in
      serial_read_loop n' (count + 1) pData q
  end.

(** [serial_read] (lines 255-273): the caller's array [pData] after the
    call, the ring after the call and the returned [unsigned char]. *)
Definition serial_read (pData : list Z) (numbyte : Z) (q : ring)
  : Z * list Z * ring :=
  if gbSerialBufferHead q =? gbSerialBufferTail q then (0, pData, q)
  else
    let numgetbyte := serial_get_qstate q in
    let numgetbyte := if numgetbyte >? numbyte then numbyte else numgetbyte in
    let '(pData, q) := serial_read_loop (Z.to_nat numgetbyte) 0 pData q in
    (to_uint8 numgetbyte, pData, q).

(** [std_getchar] (lines 357-368).  While the ring is empty the function
    spins in [while( serial_get_qstate() == 0 );], a wait that only the
    interrupt routine can end: [None] stands for it. *)
Definition std_getchar (q : ring) : option (Z * ring) :=
  if serial_get_qstate q =? 0 then None
  else
    let '(rx, q) := serial_get_queue q in
    let rx := if rx =? 13 then 10 else rx in
    Some (rx, q).

(** [serial_init] (lines 96-143) as a call on a running device, on the
    globals of this development: the byte [0xFF] goes to [UDR1], both
    indices and the command variables are reset.  The writes to the
    configuration registers of the peripheral ([UCSR1A], [UCSR1B],
    [UCSR1C], [UBRR0H], [UBRR0L]) touch nothing that is modelled here; the
    storage of the ring and the motion pages are not written. *)
Definition serial_init_call (st : state) : state :=
  let st := set_UDR1_sent (UDR1_sent st ++ [255]) st in
  let st := set_queue (mkRing (gbSerialBuffer (queue st)) 0 0) st in
  let st := set_bioloid_command 0 st in
  let st := set_last_bioloid_command 0 st in
  set_flag_receive_ready 0 st.

(** What the device does between two instants: the interrupt routine runs
    for a received byte, or the main loop polls the dispatcher.  Each runs
    to completion before the next starts. *)
Inductive activity : Type :=
| Rx (b : Z)
| Poll.

Fixpoint operate (acts : list activity) (st : state) : state :=
  match acts with
  | [] => st
  | Rx b :: rest => operate rest (USART1_RX_vect b st)
  | Poll :: rest => operate rest (SerialReceiveCommand st)
  end.

(** What the interrupt routine offers to the ring for a received byte,
    and what it echoes. *)
Definition stored_byte (b : Z) : Z := if b =? 13 then 255 else b.

Definition echo_of (b : Z) : list Z :=
  if b =? 13 then [13; 10; 32]
  else if b =? 10 then [13; 10]
  else [b].

(** Every line feed of [l] directly follows a carriage return ([prev] is
    the byte before [l]). *)
Fixpoint lf_follows_cr (prev : Z) (l : list Z) : bool :=
  match l with
  | [] => true
  | b :: rest =>
      (negb (b =? 10) || (prev =? 13)) && lf_follows_cr b rest
  end.

(** Two states with the same command variables. *)
Definition same_commands (s1 s2 : state) : Prop :=
  bioloid_command s1 = bioloid_command s2 /\
  last_bioloid_command s1 = last_bioloid_command s2 /\
  current_motion_page s1 = current_motion_page s2 /\
  last_motion_page s1 = last_motion_page s2.

(** ** Properties of the ring buffer *)

Hypothesis buffer_size : 1 <= MAXNUM_SERIALBUFF <= 256.

Lemma mod_wrap_up (x m : Z) : 0 <= x + m < m -> x mod m = x + m.
Proof.
  intros H. rewrite <- (Z_mod_plus_full x 1 m).
  rewrite Z.mul_1_l. apply Z.mod_small. exact H.
Qed.

Lemma mod_add_inj (h j k m : Z) :
  0 <= j < m -> 0 <= k < m -> (h + j) mod m = (h + k) mod m -> j = k.
Proof.
  intros Hj Hk E.
  assert (Hm : 0 < m) by lia.
  pose proof (Z.div_mod (h + j) m ltac:(lia)) as E1.
  pose proof (Z.div_mod (h + k) m ltac:(lia)) as E2.
  rewrite E in E1.
  assert (D : j - k = m * ((h + j) / m - (h + k) / m)) by lia.
  assert (Z0 : (h + j) / m - (h + k) / m = 0) by nia.
  lia.
Qed.

(** The successor of an index, as both queue functions compute it. *)
Lemma next_index (i : Z) :
  0 <= i < MAXNUM_SERIALBUFF ->
  (if i =? MAXNUM_SERIALBUFF - 1 then 0 else to_uint8 (i + 1))
  = (i + 1) mod MAXNUM_SERIALBUFF.
Proof.
  intros Hi. destruct (Z.eqb_spec i (MAXNUM_SERIALBUFF - 1)) as [->|Hne].
  - replace (MAXNUM_SERIALBUFF - 1 + 1) with MAXNUM_SERIALBUFF by lia.
    symmetry. apply Z_mod_same_full.
  - unfold to_uint8. rewrite !Z.mod_small; lia.
Qed.

Lemma qstate_mod (q : ring) :
  ring_ok q ->
  serial_get_qstate q
  = (gbSerialBufferTail q - gbSerialBufferHead q) mod MAXNUM_SERIALBUFF.
Proof.
  intros (_ & Hh & Ht). unfold serial_get_qstate.
  destruct (Z.eqb_spec (gbSerialBufferHead q) (gbSerialBufferTail q)) as [E|NE].
  - rewrite E, Z.sub_diag. symmetry. apply Z.mod_0_l. lia.
  - destruct (Z.ltb_spec (gbSerialBufferHead q) (gbSerialBufferTail q)).
    + symmetry. apply Z.mod_small. lia.
    + symmetry. rewrite mod_wrap_up; lia.
Qed.

Lemma qstate_range (q : ring) :
  ring_ok q -> 0 <= serial_get_qstate q < MAXNUM_SERIALBUFF.
Proof.
  intros H. rewrite qstate_mod by exact H. apply Z.mod_pos_bound. lia.
Qed.

Lemma qstate_zero_iff (q : ring) :
  ring_ok q ->
  serial_get_qstate q = 0 <-> gbSerialBufferHead q = gbSerialBufferTail q.
Proof.
  intros (_ & Hh & Ht). unfold serial_get_qstate.
  destruct (Z.eqb_spec (gbSerialBufferHead q) (gbSerialBufferTail q));
    [tauto|].
  destruct (Z.ltb_spec (gbSerialBufferHead q) (gbSerialBufferTail q)); lia.
Qed.

Lemma tail_from_head (q : ring) :
  ring_ok q ->
  gbSerialBufferTail q
  = (gbSerialBufferHead q + serial_get_qstate q) mod MAXNUM_SERIALBUFF.
Proof.
  intros H. rewrite qstate_mod by exact H. destruct H as (_ & Hh & Ht).
  rewrite Z.add_mod_idemp_r by lia.
  replace (gbSerialBufferHead q + (gbSerialBufferTail q - gbSerialBufferHead q))
    with (gbSerialBufferTail q) by lia.
  symmetry. apply Z.mod_small. lia.
Qed.

Lemma contents_length (q : ring) :
  ring_ok q -> Z.of_nat (length (contents q)) = serial_get_qstate q.
Proof.
  intros H. unfold contents.
  rewrite length_map, length_seq. pose proof (qstate_range q H). lia.
Qed.

(** An accepted push appends the byte to the waiting bytes. *)
Lemma put_accepted (d : Z) (q : ring) :
  ring_ok q ->
  serial_get_qstate q <> MAXNUM_SERIALBUFF - 1 ->
  ring_ok (serial_put_queue d q) /\
  serial_get_qstate (serial_put_queue d q) = serial_get_qstate q + 1 /\
  contents (serial_put_queue d q) = contents q ++ [d].
Proof.
  intros Hok Hnf.
  pose proof (qstate_range q Hok) as Hr.
  pose proof (tail_from_head q Hok) as Htl.
  pose proof (qstate_mod q Hok) as Hq.
  destruct Hok as (Hlen & Hh & Ht).
  set (q' := mkRing (<[Z.to_nat (gbSerialBufferTail q) := d]> (gbSerialBuffer q))
                    (gbSerialBufferHead q)
                    ((gbSerialBufferTail q + 1) mod MAXNUM_SERIALBUFF)).
  assert (Eq' : serial_put_queue d q = q').
  { unfold serial_put_queue.
    destruct (Z.eqb_spec (serial_get_qstate q) (MAXNUM_SERIALBUFF - 1));
      [contradiction|].
    unfold q'. rewrite <- (next_index (gbSerialBufferTail q) Ht).
    destruct (gbSerialBufferTail q =? MAXNUM_SERIALBUFF - 1); reflexivity. }
  rewrite Eq'.
  assert (Hok' : ring_ok q').
  { unfold ring_ok, q'; simpl. rewrite length_insert.
    split; [exact Hlen|]. split; [exact Hh|]. apply Z.mod_pos_bound. lia. }
  assert (Hcnt : serial_get_qstate q' = serial_get_qstate q + 1).
  { rewrite (qstate_mod q' Hok'). unfold q'; simpl.
    rewrite Zminus_mod_idemp_l.
    replace (gbSerialBufferTail q + 1 - gbSerialBufferHead q)
      with (1 + (gbSerialBufferTail q - gbSerialBufferHead q)) by lia.
    rewrite <- Z.add_mod_idemp_r by lia. rewrite <- Hq.
    rewrite Z.mod_small; lia. }
  split; [exact Hok'|]. split; [exact Hcnt|].
  unfold contents. rewrite Hcnt.
  replace (Z.to_nat (serial_get_qstate q + 1))
    with (S (Z.to_nat (serial_get_qstate q))) by lia.
  rewrite seq_S, map_app. simpl. f_equal.
  - apply map_ext_in. intros j Hj. apply in_seq in Hj.
    apply list_lookup_total_insert_ne. intros E.
    apply Z2Nat.inj in E;
      [| lia | apply Z.mod_pos_bound; lia ].
    rewrite Htl in E. apply mod_add_inj in E; lia.
  - f_equal. rewrite Z2Nat.id by lia. rewrite <- Htl.
    apply list_lookup_total_insert_eq. lia.
Qed.


(** A pop from a non-empty ring removes the oldest waiting byte. *)
Lemma get_nonempty (q : ring) :
  ring_ok q ->
  gbSerialBufferHead q <> gbSerialBufferTail q ->
  exists d q',
    serial_get_queue q = (d, q') /\
    ring_ok q' /\
    serial_get_qstate q' = serial_get_qstate q - 1 /\
    contents q = d :: contents q'.
Proof.
  intros Hok Hne.
  pose proof (qstate_range q Hok) as Hr.
  pose proof (qstate_mod q Hok) as Hq.
  assert (Hpos : serial_get_qstate q <> 0)
    by (rewrite qstate_zero_iff by exact Hok; exact Hne).
  destruct Hok as (Hlen & Hh & Ht).
  set (q' := mkRing (gbSerialBuffer q)
                    ((gbSerialBufferHead q + 1) mod MAXNUM_SERIALBUFF)
                    (gbSerialBufferTail q)).
  exists (gbSerialBuffer q !!! Z.to_nat (gbSerialBufferHead q)), q'.
  assert (Hok' : ring_ok q').
  { unfold ring_ok, q'; simpl.
    split; [exact Hlen|]. split; [|exact Ht]. apply Z.mod_pos_bound. lia. }
  assert (Hcnt : serial_get_qstate q' = serial_get_qstate q - 1).
  { rewrite (qstate_mod q' Hok'). unfold q'; simpl.
    rewrite Zminus_mod_idemp_r.
    replace (gbSerialBufferTail q - (gbSerialBufferHead q + 1))
      with (gbSerialBufferTail q - gbSerialBufferHead q + -1) by lia.
    rewrite <- Z.add_mod_idemp_l by lia. rewrite <- Hq.
    rewrite Z.mod_small; lia. }
  split.
  { unfold serial_get_queue.
    destruct (Z.eqb_spec (gbSerialBufferHead q) (gbSerialBufferTail q));
      [contradiction|].
    unfold q'. rewrite <- (next_index (gbSerialBufferHead q) Hh).
    destruct (gbSerialBufferHead q =? MAXNUM_SERIALBUFF - 1); reflexivity. }
  split; [exact Hok'|]. split; [exact Hcnt|].
  unfold contents. rewrite Hcnt.
  replace (Z.to_nat (serial_get_qstate q))
    with (S (Z.to_nat (serial_get_qstate q - 1))) by lia.
  simpl. f_equal.
  - rewrite Z.add_0_r, Z.mod_small by lia. reflexivity.
  - rewrite <- seq_shift, map_map. apply map_ext. intros j.
    rewrite Z.add_mod_idemp_l by lia.
    do 3 f_equal. lia.
Qed.

Lemma get_empty (q : ring) :
  gbSerialBufferHead q = gbSerialBufferTail q ->
  serial_get_queue q = (255, q).
Proof.
  intros E. unfold serial_get_queue.
  rewrite (proj2 (Z.eqb_eq _ _) E). reflexivity.
Qed.

Lemma contents_empty (q : ring) :
  gbSerialBufferHead q = gbSerialBufferTail q -> contents q = [].
Proof.
  intros E. unfold contents, serial_get_qstate.
  rewrite (proj2 (Z.eqb_eq _ _) E). reflexivity.
Qed.

(** One pop, in terms of the waiting bytes: the oldest byte, or [0xff]
    from an empty ring. *)
Lemma get_contents (q : ring) :
  ring_ok q ->
  exists q',
    serial_get_queue q = (hd 255 (contents q), q') /\
    ring_ok q' /\
    contents q' = tl (contents q).
Proof.
  intros Hok.
  destruct (Z.eq_dec (gbSerialBufferHead q) (gbSerialBufferTail q)) as [E|NE].
  - exists q. rewrite (get_empty q E), (contents_empty q E). auto.
  - destruct (get_nonempty q Hok NE) as (d & q' & Hg & Hok' & _ & Hc).
    exists q'. rewrite Hg, Hc. auto.
Qed.

Lemma put_full (d : Z) (q : ring) :
  serial_get_qstate q = MAXNUM_SERIALBUFF - 1 -> serial_put_queue d q = q.
Proof.
  intros E. unfold serial_put_queue.
  rewrite (proj2 (Z.eqb_eq _ _) E). reflexivity.
Qed.

(** Pushing bytes that fit appends all of them. *)
Lemma push_all_fits (ds : list Z) (q : ring) :
  ring_ok q ->
  serial_get_qstate q + Z.of_nat (length ds) <= MAXNUM_SERIALBUFF - 1 ->
  ring_ok (push_all ds q) /\
  serial_get_qstate (push_all ds q)
  = serial_get_qstate q + Z.of_nat (length ds) /\
  contents (push_all ds q) = contents q ++ ds.
Proof.
  revert q. induction ds as [|d ds IH]; intros q Hok Hfit.
  - simpl. rewrite Z.add_0_r, app_nil_r. auto.
  - simpl in Hfit. simpl.
    destruct (put_accepted d q Hok ltac:(lia)) as (Hok1 & Hc1 & Hl1).
    destruct (IH (serial_put_queue d q) Hok1 ltac:(lia)) as (Hok2 & Hc2 & Hl2).
    split; [exact Hok2|]. split.
    + rewrite Hc2, Hc1. lia.
    + rewrite Hl2, Hl1, <- app_assoc. reflexivity.
Qed.

(** The trace of a run, against the waiting bytes: what was waiting plus
    what was accepted is what was popped plus what still waits. *)
Lemma run_conserves (ops : list op) (q : ring) :
  ring_ok q ->
  ring_ok (snd (run ops q)) /\
  contents q ++ accepted_bytes (fst (run ops q))
  = popped_bytes (fst (run ops q)) ++ contents (snd (run ops q)).
Proof.
  revert q. induction ops as [|[b|] ops IH]; intros q Hok.
  - simpl. rewrite app_nil_r. auto.
  - simpl.
    destruct (Z.eqb_spec (serial_get_qstate q) (MAXNUM_SERIALBUFF - 1))
      as [Hfull|Hroom].
    + rewrite (put_full b q Hfull).
      destruct (IH q Hok) as (Hok' & Hc).
      destruct (run ops q) as [evs q'] eqn:Er. simpl in *. auto.
    + destruct (put_accepted b q Hok Hroom) as (Hok1 & _ & Hl1).
      destruct (IH _ Hok1) as (Hok' & Hc).
      destruct (run ops (serial_put_queue b q)) as [evs q'] eqn:Er.
      simpl in *. split; [exact Hok'|].
      rewrite <- Hc, Hl1, <- app_assoc. reflexivity.
  - simpl.
    destruct (Z.eq_dec (gbSerialBufferHead q) (gbSerialBufferTail q)) as [E|NE].
    + rewrite (get_empty q E).
      rewrite (proj2 (qstate_zero_iff q Hok) E). simpl.
      destruct (IH q Hok) as (Hok' & Hc).
      destruct (run ops q) as [evs q'] eqn:Er. simpl in *. auto.
    + destruct (get_nonempty q Hok NE) as (d & q1 & Hg & Hok1 & _ & Hc1).
      rewrite Hg.
      assert (Hnz : serial_get_qstate q <> 0)
        by (rewrite qstate_zero_iff by exact Hok; exact NE).
      destruct (Z.eqb_spec (serial_get_qstate q) 0); [contradiction|].
      destruct (IH q1 Hok1) as (Hok' & Hc).
      destruct (run ops q1) as [evs q'] eqn:Er. simpl in *.
      split; [exact Hok'|]. rewrite Hc1. simpl. f_equal. exact Hc.
Qed.


(** ** Ring buffer claims *)

(** C6. Starting from an empty ring buffer of capacity
    [MAXNUM_SERIALBUFF], the first [MAXNUM_SERIALBUFF - 1] pushes all
    succeed: after [k] of them the occupied count is [k], and after all of
    them the pushed bytes wait in the ring in push order and the occupied
    count is [MAXNUM_SERIALBUFF - 1].  One more push is a no-op: it
    returns the very same ring (storage, head and tail), so the occupied
    count stays at [MAXNUM_SERIALBUFF - 1]. *)
Theorem ring_buffer_capacity (q : ring) (ds : list Z) (d : Z) :
  ring_ok q ->
  gbSerialBufferHead q = gbSerialBufferTail q ->
  Z.of_nat (length ds) = MAXNUM_SERIALBUFF - 1 ->
  (forall k : nat, (k <= length ds)%nat ->
     serial_get_qstate (push_all (take k ds) q) = Z.of_nat k) /\
  contents (push_all ds q) = ds /\
  serial_get_qstate (push_all ds q) = MAXNUM_SERIALBUFF - 1 /\
  serial_put_queue d (push_all ds q) = push_all ds q /\
  serial_get_qstate (serial_put_queue d (push_all ds q))
  = MAXNUM_SERIALBUFF - 1.
Proof.
  intros Hok Hempty Hlen.
  assert (H0 : serial_get_qstate q = 0)
    by (apply qstate_zero_iff; assumption).
  assert (Hfull : serial_get_qstate (push_all ds q) = MAXNUM_SERIALBUFF - 1).
  { destruct (push_all_fits ds q Hok ltac:(lia)) as (_ & Hc & _). lia. }
  split.
  { intros k Hk.
    assert (Hlk : length (take k ds) = k) by (rewrite length_take; lia).
    destruct (push_all_fits (take k ds) q Hok ltac:(lia)) as (_ & Hc & _).
    lia. }
  split.
  { destruct (push_all_fits ds q Hok ltac:(lia)) as (_ & _ & Hl).
    rewrite Hl, (contents_empty q Hempty). reflexivity. }
  split; [exact Hfull|].
  rewrite (put_full d _ Hfull). split; [reflexivity | exact Hfull].
Qed.

(** C7. For every interleaved sequence of pushes and pops issued on an
    empty ring, the bytes returned by the successful pops are, in order,
    the first of the bytes of the accepted pushes (the k-th successful pop
    returns the k-th accepted byte), and the occupied count at the end of
    the sequence is the number of accepted pushes minus the number of
    successful pops.  The sequence is arbitrary, so the indices wrap past
    the end of the storage as often as the sequence makes them. *)
Theorem fifo_order_and_count (ops : list op) (q : ring) :
  ring_ok q ->
  gbSerialBufferHead q = gbSerialBufferTail q ->
  popped_bytes (fst (run ops q))
  = take (length (popped_bytes (fst (run ops q))))
         (accepted_bytes (fst (run ops q))) /\
  serial_get_qstate (snd (run ops q))
  = Z.of_nat (length (accepted_bytes (fst (run ops q))))
    - Z.of_nat (length (popped_bytes (fst (run ops q)))).
Proof.
  intros Hok Hempty.
  destruct (run_conserves ops q Hok) as (Hok' & Hc).
  rewrite (contents_empty q Hempty) in Hc. simpl in Hc.
  rewrite Hc. split.
  - rewrite take_app_length. reflexivity.
  - rewrite length_app, <- (contents_length _ Hok'). lia.
Qed.

(** C8. A pop on an empty ring (head equal to tail) returns the [0xFF]
    sentinel and leaves the ring - head index, tail index and stored
    bytes - unchanged. *)
Theorem pop_on_empty_ring (q : ring) :
  gbSerialBufferHead q = gbSerialBufferTail q ->
  serial_get_queue q = (255, q).
Proof.
  intros E. unfold serial_get_queue.
  destruct (Z.eqb_spec (gbSerialBufferHead q) (gbSerialBufferTail q));
    [reflexivity | contradiction].
Qed.


(** ** Properties of the interrupt routine *)

Lemma receive_app (a b : list Z) (st : state) :
  receive (a ++ b) st = receive b (receive a st).
Proof. unfold receive. apply fold_left_app. Qed.

(** Data bytes only reach the ring and the transmit line. *)
Lemma receive_data (bs : list Z) (st : state) :
  Forall (fun b => b <> 13) bs ->
  queue (receive bs st) = push_all bs (queue st) /\
  bioloid_command (receive bs st) = bioloid_command st /\
  last_bioloid_command (receive bs st) = last_bioloid_command st /\
  flag_receive_ready (receive bs st) = flag_receive_ready st /\
  current_motion_page (receive bs st) = current_motion_page st /\
  last_motion_page (receive bs st) = last_motion_page st.
Proof.
  intros H. revert st. induction H as [|b bs Hb _ IH]; intros st.
  - simpl. auto 10.
  - change (receive (b :: bs) st) with (receive bs (USART1_RX_vect b st)).
    destruct (IH (USART1_RX_vect b st)) as (E1 & E2 & E3 & E4 & E5 & E6).
    rewrite E1, E2, E3, E4, E5, E6. unfold USART1_RX_vect.
    destruct (Z.eqb_spec b 13); [contradiction|]. simpl. auto 10.
Qed.

Lemma receive_terminator (st : state) :
  queue (USART1_RX_vect 13 st) = serial_put_queue 255 (queue st) /\
  bioloid_command (USART1_RX_vect 13 st) = bioloid_command st /\
  last_bioloid_command (USART1_RX_vect 13 st) = last_bioloid_command st /\
  flag_receive_ready (USART1_RX_vect 13 st) = 1 /\
  current_motion_page (USART1_RX_vect 13 st) = current_motion_page st /\
  last_motion_page (USART1_RX_vect 13 st) = last_motion_page st.
Proof. unfold USART1_RX_vect. simpl. auto 10. Qed.

(** A whole frame received on an empty ring: the payload and the sentinel
    wait in the ring, the flag is set, the command state is untouched. *)
Lemma receive_frame (payload : list Z) (st : state) :
  ring_ok (queue st) ->
  gbSerialBufferHead (queue st) = gbSerialBufferTail (queue st) ->
  Forall (fun b => b <> 13) payload ->
  Z.of_nat (length payload) + 2 <= MAXNUM_SERIALBUFF ->
  ring_ok (queue (receive (payload ++ [13]) st)) /\
  contents (queue (receive (payload ++ [13]) st)) = payload ++ [255] /\
  bioloid_command (receive (payload ++ [13]) st) = bioloid_command st /\
  last_bioloid_command (receive (payload ++ [13]) st)
  = last_bioloid_command st /\
  flag_receive_ready (receive (payload ++ [13]) st) = 1 /\
  current_motion_page (receive (payload ++ [13]) st)
  = current_motion_page st /\
  last_motion_page (receive (payload ++ [13]) st) = last_motion_page st.
Proof.
  intros Hok Hempty Hdata Hfit.
  rewrite receive_app.
  change (receive [13] (receive payload st))
    with (USART1_RX_vect 13 (receive payload st)).
  destruct (receive_terminator (receive payload st))
    as (E1 & E2 & E3 & E4 & E5 & E6).
  destruct (receive_data payload st Hdata) as (D1 & D2 & D3 & _ & D5 & D6).
  rewrite E1, E2, E3, E4, E5, E6, D1, D2, D3, D5, D6.
  replace (serial_put_queue 255 (push_all payload (queue st)))
    with (push_all (payload ++ [255]) (queue st))
    by (unfold push_all; rewrite fold_left_app; reflexivity).
  assert (H0 : serial_get_qstate (queue st) = 0)
    by (apply qstate_zero_iff; assumption).
  destruct (push_all_fits (payload ++ [255]) (queue st) Hok) as (R1 & _ & R3).
  { rewrite length_app. simpl. lia. }
  rewrite R3, (contents_empty _ Hempty). simpl. auto 10.
Qed.

(** ** Properties of the dispatcher *)

(** The characters of the command, from the bytes waiting in the ring:
    missing bytes read as [0xff]. *)
Lemma read_command_contents (q : ring) :
  ring_ok q ->
  exists q',
    read_command q
    = (fold_upper (hd 255 (contents q)),
       blank_pad (fold_upper (hd 255 (tl (contents q)))),
       blank_pad (fold_upper (hd 255 (tl (tl (contents q))))),
       blank_pad (fold_upper (hd 255 (tl (tl (tl (contents q)))))),
       q') /\
    ring_ok q' /\
    contents q' = tl (tl (tl (tl (tl (contents q))))).
Proof.
  intros Hok. unfold read_command.
  destruct (get_contents q Hok) as (q1 & G1 & Hok1 & C1).
  destruct (get_contents q1 Hok1) as (q2 & G2 & Hok2 & C2).
  destruct (get_contents q2 Hok2) as (q3 & G3 & Hok3 & C3).
  destruct (get_contents q3 Hok3) as (q4 & G4 & Hok4 & C4).
  destruct (get_contents q4 Hok4) as (q5 & G5 & Hok5 & C5).
  rewrite G1, G2, G3, G4, G5.
  exists q5. rewrite C5, C4, C3, C2, C1. auto.
Qed.

Lemma dispatch_unfold (st : state) (c1 c2 c3 c4 : Z) (q : ring) :
  flag_receive_ready st <> 0 ->
  read_command (queue st) = (c1, c2, c3, c4, q) ->
  SerialReceiveCommand st
  = acknowledge c1 c2 c3 c4
      (set_flag_receive_ready 0
         (motion_page_case c1 c2 c3 c4
            (command_loop (Z.to_nat NUMBER_OF_COMMANDS) 0 [c1; c2; c3; c4]
               (set_queue q st)))).
Proof.
  intros Hflag Hread. unfold SerialReceiveCommand.
  destruct (Z.eqb_spec (flag_receive_ready st) 0); [contradiction|].
  rewrite Hread. reflexivity.
Qed.

Hypothesis command_count : 1 <= NUMBER_OF_COMMANDS <= 20.

(** The loop when no remaining entry matches: the last iteration records
    "not found". *)
Lemma command_loop_no_match (command : list Z) (n : nat) (i : Z) (st : state) :
  0 <= i ->
  i + Z.of_nat n = NUMBER_OF_COMMANDS ->
  (forall j, i <= j < NUMBER_OF_COMMANDS ->
     strcmp (command_string j) command <> 0) ->
  command_loop n i command st
  = match n with
    | O => st
    | S _ => set_bioloid_command (to_uint8 COMMAND_NOT_FOUND) st
    end.
Proof.
  revert i st. induction n as [|n IH]; intros i st Hi Hsum Hno.
  - reflexivity.
  - simpl.
    destruct (Z.eqb_spec (strcmp (command_string i) command) 0) as [E|_].
    { exfalso. apply (Hno i); [lia | exact E]. }
    assert (Hnext : to_uint8 (i + 1) = i + 1)
      by (unfold to_uint8; apply Z.mod_small; lia).
    rewrite Hnext.
    rewrite IH; [| lia | lia | intros j Hj; apply Hno; lia ].
    destruct n as [|n].
    + destruct (Z.eqb_spec i (NUMBER_OF_COMMANDS - 1)); [reflexivity | lia].
    + destruct (Z.eqb_spec i (NUMBER_OF_COMMANDS - 1)); [lia | reflexivity].
Qed.

(** The loop when entry [m] is the first to match: it breaks there. *)
Lemma command_loop_match (command : list Z) (m : Z) (n : nat) (i : Z)
      (st : state) :
  0 <= i <= m ->
  m < NUMBER_OF_COMMANDS ->
  i + Z.of_nat n = NUMBER_OF_COMMANDS ->
  strcmp (command_string m) command = 0 ->
  (forall j, i <= j < m -> strcmp (command_string j) command <> 0) ->
  command_loop n i command st
  = set_bioloid_command m
      (set_last_bioloid_command (bioloid_command st) st).
Proof.
  revert i st. induction n as [|n IH]; intros i st Hi Hm Hsum Hmatch Hno.
  - lia.
  - simpl.
    destruct (Z.eqb_spec (strcmp (command_string i) command) 0) as [E|NE].
    + destruct (Z.eq_dec i m) as [->|Hne]; [reflexivity|].
      exfalso. apply (Hno i); [lia | exact E].
    + assert (Him : i <> m) by (intros ->; contradiction).
      assert (Hnext : to_uint8 (i + 1) = i + 1)
        by (unfold to_uint8; apply Z.mod_small; lia).
      rewrite Hnext.
      destruct (Z.eqb_spec i (NUMBER_OF_COMMANDS - 1)); [lia|].
      apply IH; [lia | lia | lia | exact Hmatch | intros j Hj; apply Hno; lia].
Qed.

(** Every table entry that the loop reads, from a property of the first
    [k] entries of the table. *)
Lemma table_entries (P : list Z -> Prop) (k : nat) (j : Z) :
  Forall P (take k COMMANDSTR_POINTER) ->
  0 <= j < Z.of_nat k ->
  (k <= 20)%nat ->
  P (command_string j).
Proof.
  intros HP Hj Hk. unfold command_string.
  rewrite <- (lookup_total_take_lt COMMANDSTR_POINTER k) by lia.
  apply Forall_lookup_total_1; [exact HP|].
  rewrite length_take. change (length COMMANDSTR_POINTER) with 20%nat. lia.
Qed.


Hypothesis not_found_code : NUMBER_OF_COMMANDS <= COMMAND_NOT_FOUND <= 255.
Hypothesis motion_page_code : 0 <= COMMAND_MOTIONPAGE <= 255.

Ltac decide_tests :=
  repeat match goal with
    | |- context [?a <=? ?b] =>
        destruct (Z.leb_spec a b); try (exfalso; lia)
    | |- context [?a =? ?b] =>
        destruct (Z.eqb_spec a b); try (exfalso; lia)
    end;
  cbn [andb negb].

Lemma acknowledge_state (c1 c2 c3 c4 : Z) (st : state) :
  queue (acknowledge c1 c2 c3 c4 st) = queue st /\
  bioloid_command (acknowledge c1 c2 c3 c4 st) = bioloid_command st /\
  last_bioloid_command (acknowledge c1 c2 c3 c4 st)
  = last_bioloid_command st /\
  flag_receive_ready (acknowledge c1 c2 c3 c4 st) = flag_receive_ready st /\
  current_motion_page (acknowledge c1 c2 c3 c4 st)
  = current_motion_page st /\
  last_motion_page (acknowledge c1 c2 c3 c4 st) = last_motion_page st.
Proof. unfold acknowledge. repeat split; reflexivity. Qed.

(** What the dispatcher leaves in the command state, through the steps
    that follow the Motion Page case. *)
Lemma dispatch_command_state (st : state) (c1 c2 c3 c4 : Z) (q : ring) :
  flag_receive_ready st <> 0 ->
  read_command (queue st) = (c1, c2, c3, c4, q) ->
  let st' :=
    motion_page_case c1 c2 c3 c4
      (command_loop (Z.to_nat NUMBER_OF_COMMANDS) 0 [c1; c2; c3; c4]
         (set_queue q st)) in
  bioloid_command (SerialReceiveCommand st) = bioloid_command st' /\
  last_bioloid_command (SerialReceiveCommand st) = last_bioloid_command st' /\
  current_motion_page (SerialReceiveCommand st) = current_motion_page st' /\
  last_motion_page (SerialReceiveCommand st) = last_motion_page st'.
Proof.
  intros Hflag Hread st'.
  rewrite (dispatch_unfold st c1 c2 c3 c4 q Hflag Hread). fold st'.
  destruct (acknowledge_state c1 c2 c3 c4 (set_flag_receive_ready 0 st'))
    as (_ & A2 & A3 & _ & A5 & A6).
  rewrite A2, A3, A5, A6. auto.
Qed.

Lemma motion_page_case_previous (c1 c2 c3 c4 : Z) (st : state) :
  last_bioloid_command (motion_page_case c1 c2 c3 c4 st)
  = last_bioloid_command st.
Proof.
  unfold motion_page_case.
  repeat match goal with
    | |- context [if ?b then _ else _] => destruct b
    end; reflexivity.
Qed.

Lemma motion_page_case_skipped (c1 c2 c3 c4 : Z) (st : state) :
  bioloid_command st <> COMMAND_NOT_FOUND ->
  motion_page_case c1 c2 c3 c4 st = st.
Proof.
  intros H. unfold motion_page_case.
  destruct (Z.eqb_spec (bioloid_command st) COMMAND_NOT_FOUND);
    [contradiction | reflexivity].
Qed.

Lemma motion_page_case_command (c1 c2 c3 c4 : Z) (st : state) :
  bioloid_command st = COMMAND_NOT_FOUND ->
  bioloid_command (motion_page_case c1 c2 c3 c4 st) = COMMAND_MOTIONPAGE \/
  bioloid_command (motion_page_case c1 c2 c3 c4 st) = COMMAND_NOT_FOUND.
Proof.
  intros H. unfold motion_page_case.
  assert (Hmp : to_uint8 COMMAND_MOTIONPAGE = COMMAND_MOTIONPAGE)
    by (unfold to_uint8; apply Z.mod_small; lia).
  repeat match goal with
    | |- context [if ?b then _ else _] => destruct b
    end; cbn; rewrite ?Hmp; auto.
Qed.

(** The Motion Page case on ['M'] followed by a digit. *)
Lemma motion_page_case_digit (c2 c3 c4 : Z) (st : state) :
  bioloid_command st = COMMAND_NOT_FOUND ->
  48 <= c2 <= 57 ->
  let p2 := to_uint8 (c2 - 48) in
  let p3 := if (48 <=? c3) && (c3 <=? 57)
            then to_uint8 (to_uint8 (p2 * 10) + (c3 - 48)) else p2 in
  let p4 := if (48 <=? c4) && (c4 <=? 57)
            then to_uint8 (to_uint8 (p3 * 10) + (c4 - 48)) else p3 in
  bioloid_command (motion_page_case 77 c2 c3 c4 st) = COMMAND_MOTIONPAGE /\
  last_bioloid_command (motion_page_case 77 c2 c3 c4 st)
  = last_bioloid_command st /\
  current_motion_page (motion_page_case 77 c2 c3 c4 st) = p4 /\
  last_motion_page (motion_page_case 77 c2 c3 c4 st)
  = current_motion_page st.
Proof.
  intros Hnf Hc2 p2 p3 p4. subst p2 p3 p4.
  assert (Hmp : to_uint8 COMMAND_MOTIONPAGE = COMMAND_MOTIONPAGE)
    by (unfold to_uint8; apply Z.mod_small; lia).
  unfold motion_page_case. rewrite Hnf, Z.eqb_refl.
  change (77 =? 77) with true. cbn [andb].
  destruct (Z.leb_spec 48 c2); [|exfalso; lia].
  destruct (Z.leb_spec c2 57); [|exfalso; lia].
  cbn [andb].
  destruct ((48 <=? c3) && (c3 <=? 57)), ((48 <=? c4) && (c4 <=? 57));
    cbn; rewrite Hmp; auto.
Qed.

Lemma page_step (a b : Z) :
  to_uint8 (to_uint8 (a * 10) + b) = (10 * a + b) mod 256.
Proof.
  unfold to_uint8. rewrite Z.add_mod_idemp_l by lia. f_equal. lia.
Qed.

Lemma fold_upper_below (c : Z) : c < 97 -> fold_upper c = c.
Proof. intros H. unfold fold_upper. decide_tests. reflexivity. Qed.

Lemma blank_pad_other (c : Z) : c <> 255 -> blank_pad c = c.
Proof. intros H. unfold blank_pad. decide_tests. reflexivity. Qed.

(** A frame received on an empty ring and then dispatched: the command is
    made of the first bytes of the payload followed by the sentinel. *)
Lemma dispatch_frame (payload : list Z) (st : state) :
  ring_ok (queue st) ->
  gbSerialBufferHead (queue st) = gbSerialBufferTail (queue st) ->
  Forall (fun b => b <> 13) payload ->
  Z.of_nat (length payload) + 2 <= MAXNUM_SERIALBUFF ->
  let l := payload ++ [255] in
  let c1 := fold_upper (hd 255 l) in
  let c2 := blank_pad (fold_upper (hd 255 (tl l))) in
  let c3 := blank_pad (fold_upper (hd 255 (tl (tl l)))) in
  let c4 := blank_pad (fold_upper (hd 255 (tl (tl (tl l))))) in
  exists st1,
    let st' :=
      motion_page_case c1 c2 c3 c4
        (command_loop (Z.to_nat NUMBER_OF_COMMANDS) 0 [c1; c2; c3; c4] st1) in
    let st2 := SerialReceiveCommand (receive (payload ++ [13]) st) in
    (bioloid_command st1 = bioloid_command st /\
     last_bioloid_command st1 = last_bioloid_command st /\
     current_motion_page st1 = current_motion_page st /\
     last_motion_page st1 = last_motion_page st) /\
    (bioloid_command st2 = bioloid_command st' /\
     last_bioloid_command st2 = last_bioloid_command st' /\
     current_motion_page st2 = current_motion_page st' /\
     last_motion_page st2 = last_motion_page st').
Proof.
  intros Hok Hempty Hdata Hfit l c1 c2 c3 c4.
  destruct (receive_frame payload st Hok Hempty Hdata Hfit)
    as (Rok & Rc & R1 & R2 & R3 & R4 & R5).
  destruct (read_command_contents _ Rok) as (q' & Hread & _ & _).
  rewrite Rc in Hread. fold l c1 c2 c3 c4 in Hread.
  exists (set_queue q' (receive (payload ++ [13]) st)).
  split.
  - cbn [set_queue bioloid_command last_bioloid_command
         current_motion_page last_motion_page]. auto.
  - apply dispatch_command_state; [lia | exact Hread].
Qed.


Lemma not_found_byte : to_uint8 COMMAND_NOT_FOUND = COMMAND_NOT_FOUND.
Proof. unfold to_uint8. apply Z.mod_small. lia. Qed.

(** The whole scan when no entry matches. *)
Lemma scan_not_found (command : list Z) (st : state) :
  (forall j, 0 <= j < NUMBER_OF_COMMANDS ->
     strcmp (command_string j) command <> 0) ->
  command_loop (Z.to_nat NUMBER_OF_COMMANDS) 0 command st
  = set_bioloid_command COMMAND_NOT_FOUND st.
Proof.
  intros Hno.
  rewrite (command_loop_no_match command (Z.to_nat NUMBER_OF_COMMANDS) 0 st);
    [| lia | lia | exact Hno ].
  rewrite not_found_byte.
  destruct (Z.to_nat NUMBER_OF_COMMANDS) eqn:E; [lia | reflexivity].
Qed.

(** The whole scan when entry [m] is the first to match. *)
Lemma scan_match (command : list Z) (m : Z) (st : state) :
  0 <= m < NUMBER_OF_COMMANDS ->
  strcmp (command_string m) command = 0 ->
  (forall j, 0 <= j < m -> strcmp (command_string j) command <> 0) ->
  command_loop (Z.to_nat NUMBER_OF_COMMANDS) 0 command st
  = set_bioloid_command m
      (set_last_bioloid_command (bioloid_command st) st).
Proof.
  intros Hm Hmatch Hno.
  apply command_loop_match; [lia | lia | lia | exact Hmatch | exact Hno].
Qed.

(** Among the first [n] entries either none matches or one is the first
    to match. *)
Lemma first_match_dec (command : list Z) (n : nat) :
  (forall j, 0 <= j < Z.of_nat n -> strcmp (command_string j) command <> 0) \/
  (exists m, 0 <= m < Z.of_nat n /\
             strcmp (command_string m) command = 0 /\
             forall j, 0 <= j < m -> strcmp (command_string j) command <> 0).
Proof.
  induction n as [|n [Hnone|(m & Hm & Hmatch & Hfirst)]].
  - left. intros j Hj. lia.
  - destruct (Z.eq_dec (strcmp (command_string (Z.of_nat n)) command) 0)
      as [E|NE].
    + right. exists (Z.of_nat n). split; [lia|]. split; [exact E|].
      exact Hnone.
    + left. intros j Hj.
      destruct (Z.eq_dec j (Z.of_nat n)) as [->|Hne]; [exact NE|].
      apply Hnone. lia.
  - right. exists m. split; [lia|]. auto.
Qed.

(** No entry of the table has a digit in second place. *)
Lemma digit_token_no_match (c1 c2 c3 c4 j : Z) :
  48 <= c2 <= 57 ->
  0 <= j < NUMBER_OF_COMMANDS ->
  strcmp (command_string j) [c1; c2; c3; c4] <> 0.
Proof.
  intros Hc2 Hj.
  apply (table_entries (fun e => strcmp e [c1; c2; c3; c4] <> 0) 20);
    [| lia | lia ].
  let l := eval vm_compute in (take 20 COMMANDSTR_POINTER) in
  change (take 20 COMMANDSTR_POINTER) with l.
  repeat constructor; cbn [strcmp]; decide_tests; lia.
Qed.

(** ** Dispatcher claims *)

(** C9. With [flag_receive_ready] false the dispatcher is a no-op: it
    returns the state it was given, so the current and previous command,
    the current and previous motion page, the flag, the ring buffer and the
    bytes sent on the line are all unchanged. *)
Theorem dispatcher_idle_noop (st : state) :
  flag_receive_ready st = 0 ->
  SerialReceiveCommand st = st.
Proof.
  intros H. unfold SerialReceiveCommand. rewrite H. reflexivity.
Qed.

(** C10. When a frame is dispatched, [last_bioloid_command] receives the
    old [bioloid_command] exactly when some entry of the command table
    matches the command read from the ring, and [bioloid_command] is then
    the index of a matching entry.  When no entry matches,
    [last_bioloid_command] keeps its value, although [bioloid_command] is
    overwritten with the Motion Page code or the not-found code. *)
Theorem previous_command_update
        (st : state) (c1 c2 c3 c4 : Z) (q : ring) :
  flag_receive_ready st <> 0 ->
  read_command (queue st) = (c1, c2, c3, c4, q) ->
  ((exists i, 0 <= i < NUMBER_OF_COMMANDS /\
              strcmp (command_string i) [c1; c2; c3; c4] = 0) ->
   last_bioloid_command (SerialReceiveCommand st) = bioloid_command st /\
   0 <= bioloid_command (SerialReceiveCommand st) < NUMBER_OF_COMMANDS /\
   strcmp (command_string (bioloid_command (SerialReceiveCommand st)))
          [c1; c2; c3; c4] = 0) /\
  ((forall i, 0 <= i < NUMBER_OF_COMMANDS ->
              strcmp (command_string i) [c1; c2; c3; c4] <> 0) ->
   last_bioloid_command (SerialReceiveCommand st) = last_bioloid_command st /\
   (bioloid_command (SerialReceiveCommand st) = COMMAND_MOTIONPAGE \/
    bioloid_command (SerialReceiveCommand st) = COMMAND_NOT_FOUND)).
Proof.
  intros Hflag Hread.
  destruct (dispatch_command_state st c1 c2 c3 c4 q Hflag Hread)
    as (D1 & D2 & _ & _).
  rewrite D1, D2, motion_page_case_previous.
  split.
  - intros (i & Hi & Hmatch).
    destruct (first_match_dec [c1; c2; c3; c4] (Z.to_nat NUMBER_OF_COMMANDS))
      as [Hnone|(m & Hm & Hmm & Hfirst)].
    { exfalso. apply (Hnone i); [lia | exact Hmatch]. }
    rewrite (scan_match _ m) by (lia || assumption).
    rewrite motion_page_case_skipped by (cbn; lia).
    cbn. split; [reflexivity|]. split; [lia | exact Hmm].
  - intros Hnone. rewrite (scan_not_found _ _ Hnone).
    split; [reflexivity|].
    apply motion_page_case_command. reflexivity.
Qed.

(** C5 (as amended). For the frame terminator the interrupt routine sends
    three bytes on the line: carriage return, line feed, and then a
    space. *)
Theorem terminator_echo (st : state) :
  UDR1_sent (USART1_RX_vect 13 st) = UDR1_sent st ++ [13; 10; 32].
Proof.
  unfold USART1_RX_vect. cbn. unfold serial_write.
  rewrite <- app_assoc. reflexivity.
Qed.


(** C3 (the code on the empty frame). When only the terminator is
    received, the first character of the command stays [0xFF]: the blank
    padding is applied to the second, third and fourth characters only, so
    the command is [0xFF] followed by three spaces. *)
Theorem empty_frame_command (st : state) :
  ring_ok (queue st) ->
  gbSerialBufferHead (queue st) = gbSerialBufferTail (queue st) ->
  2 <= MAXNUM_SERIALBUFF ->
  exists q,
    read_command (queue (receive [13] st)) = (255, 32, 32, 32, q).
Proof.
  intros Hok Hempty Hsize.
  destruct (receive_frame [] st Hok Hempty ltac:(constructor) ltac:(simpl; lia))
    as (Rok & Rc & _).
  destruct (read_command_contents _ Rok) as (q & Hread & _).
  change ([] ++ [13]) with [13] in Hread, Rc.
  exists q. rewrite Hread, Rc. reflexivity.
Qed.

(** The blank padding of the second, third and fourth characters: none of
    them is ever [0xFF]. *)
Lemma padded_positions (q q' : ring) (c1 c2 c3 c4 : Z) :
  read_command q = (c1, c2, c3, c4, q') ->
  c2 <> 255 /\ c3 <> 255 /\ c4 <> 255.
Proof.
  unfold read_command.
  destruct (serial_get_queue q) as [b1 q1].
  destruct (serial_get_queue q1) as [b2 q2].
  destruct (serial_get_queue q2) as [b3 q3].
  destruct (serial_get_queue q3) as [b4 q4].
  destruct (serial_get_queue q4) as [b5 q5].
  intros E. injection E as _ <- <- <- _.
  unfold toupper. repeat split; decide_tests; cbn [andb] in *; lia.
Qed.

(** C1 (the code on the frame ['M2X4']). The test of the fourth character
    does not depend on the third: the digit after the non-digit is still
    accumulated, and the motion page is 24. *)
Theorem motion_page_skips_non_digit (st : state) :
  ring_ok (queue st) ->
  gbSerialBufferHead (queue st) = gbSerialBufferTail (queue st) ->
  6 <= MAXNUM_SERIALBUFF ->
  bioloid_command (SerialReceiveCommand (receive [77; 50; 88; 52; 13] st))
  = COMMAND_MOTIONPAGE /\
  current_motion_page (SerialReceiveCommand (receive [77; 50; 88; 52; 13] st))
  = 24.
Proof.
  intros Hok Hempty Hsize.
  destruct (dispatch_frame [77; 50; 88; 52] st Hok Hempty)
    as (st1 & _ & (D1 & _ & D3 & _)).
  { repeat constructor; lia. }
  { simpl. lia. }
  change ([77; 50; 88; 52] ++ [13]) with [77; 50; 88; 52; 13] in D1, D3.
  rewrite D1, D3. cbn [hd tl app].
  change (fold_upper 77) with 77.
  change (blank_pad (fold_upper 50)) with 50.
  change (blank_pad (fold_upper 88)) with 88.
  change (blank_pad (fold_upper 52)) with 52.
  rewrite scan_not_found
    by (intros j Hj; apply digit_token_no_match; [lia | exact Hj]).
  destruct (motion_page_case_digit 50 88 52
              (set_bioloid_command COMMAND_NOT_FOUND st1) eq_refl ltac:(lia))
    as (M1 & _ & M3 & _).
  rewrite M1, M3. split; reflexivity.
Qed.


(** The other value that the constant of the absent header could take:
    were the scan to cover all twenty entries of the table, the frame
    ['M'] alone would be matched by entry 19 (["M   "]) and
    [last_bioloid_command] would receive the old [bioloid_command]. *)
Lemma lone_M_matches_entry_19 (st : state) :
  NUMBER_OF_COMMANDS = 20 ->
  ring_ok (queue st) ->
  gbSerialBufferHead (queue st) = gbSerialBufferTail (queue st) ->
  3 <= MAXNUM_SERIALBUFF ->
  bioloid_command (SerialReceiveCommand (receive [77; 13] st)) = 19 /\
  bioloid_command (SerialReceiveCommand (receive [77; 13] st))
  <> COMMAND_NOT_FOUND /\
  last_bioloid_command (SerialReceiveCommand (receive [77; 13] st))
  = bioloid_command st /\
  current_motion_page (SerialReceiveCommand (receive [77; 13] st))
  = current_motion_page st /\
  last_motion_page (SerialReceiveCommand (receive [77; 13] st))
  = last_motion_page st.
Proof.
  intros Hcount Hok Hempty Hsize.
  destruct (dispatch_frame [77] st Hok Hempty)
    as (st1 & (S1 & _ & S3 & S4) & (D1 & D2 & D3 & D4)).
  { repeat constructor; lia. }
  { simpl. lia. }
  change ([77] ++ [13]) with [77; 13] in D1, D2, D3, D4.
  rewrite D1, D2, D3, D4. cbn [hd tl app].
  change (fold_upper 77) with 77.
  change (blank_pad (fold_upper 255)) with 32.
  rewrite (scan_match [77; 32; 32; 32] 19).
  - rewrite motion_page_case_skipped by (cbn; lia).
    cbn. rewrite S1, S3, S4. repeat split; try reflexivity. lia.
  - lia.
  - reflexivity.
  - intros j Hj.
    apply (table_entries (fun e => strcmp e [77; 32; 32; 32] <> 0) 19);
      [| lia | lia ].
    let l := eval vm_compute in (take 19 COMMANDSTR_POINTER) in
    change (take 19 COMMANDSTR_POINTER) with l.
    repeat constructor; intros E; vm_compute in E; discriminate E.
Qed.


(** The frame ['M'] followed by digit characters, once dispatched. *)
Lemma motion_page_token (st : state) (cs : list Z) (c2 c3 c4 : Z) :
  ring_ok (queue st) ->
  gbSerialBufferHead (queue st) = gbSerialBufferTail (queue st) ->
  Forall (fun b => b <> 13) cs ->
  Z.of_nat (length cs) + 3 <= MAXNUM_SERIALBUFF ->
  48 <= c2 <= 57 ->
  blank_pad (fold_upper (hd 255 (cs ++ [255]))) = c2 ->
  blank_pad (fold_upper (hd 255 (tl (cs ++ [255])))) = c3 ->
  blank_pad (fold_upper (hd 255 (tl (tl (cs ++ [255]))))) = c4 ->
  let st' := SerialReceiveCommand (receive (77 :: cs ++ [13]) st) in
  let p2 := to_uint8 (c2 - 48) in
  let p3 := if (48 <=? c3) && (c3 <=? 57)
            then to_uint8 (to_uint8 (p2 * 10) + (c3 - 48)) else p2 in
  let p4 := if (48 <=? c4) && (c4 <=? 57)
            then to_uint8 (to_uint8 (p3 * 10) + (c4 - 48)) else p3 in
  bioloid_command st' = COMMAND_MOTIONPAGE /\
  current_motion_page st' = p4 /\
  last_motion_page st' = current_motion_page st.
Proof.
  intros Hok Hempty Hdata Hfit Hc2 E2 E3 E4.
  destruct (dispatch_frame (77 :: cs) st Hok Hempty)
    as (st1 & (_ & _ & S3 & _) & (D1 & _ & D3 & D4)).
  { constructor; [lia | exact Hdata]. }
  { simpl length. lia. }
  change ((77 :: cs) ++ [13]) with (77 :: cs ++ [13]) in D1, D3, D4.
  cbv zeta. rewrite D1, D3, D4.
  change ((77 :: cs) ++ [255]) with (77 :: (cs ++ [255])).
  cbn [hd tl]. rewrite E2, E3, E4.
  change (fold_upper 77) with 77.
  rewrite scan_not_found
    by (intros j Hj; apply digit_token_no_match; [lia | exact Hj]).
  destruct (motion_page_case_digit c2 c3 c4
              (set_bioloid_command COMMAND_NOT_FOUND st1) eq_refl Hc2)
    as (M1 & _ & M3 & M4).
  rewrite M1, M3, M4. cbn. rewrite S3. auto.
Qed.

(** C4 (as amended). For every frame made of ['M'], one to three decimal
    digits and the terminator, the dispatcher sets [bioloid_command] to the
    Motion Page code, moves the old motion page to [last_motion_page] and
    sets [current_motion_page] to the base-10 value of the digits reduced
    modulo 256 (the variable is 8 bits wide), which is the exact value
    whenever that value is at most 255; the frame ['MX'] yields the
    not-found code. *)
Theorem motion_page_frames (st : state) (cs : list Z) :
  ring_ok (queue st) ->
  gbSerialBufferHead (queue st) = gbSerialBufferTail (queue st) ->
  6 <= MAXNUM_SERIALBUFF ->
  Forall (fun c => 48 <= c <= 57) cs ->
  (1 <= length cs <= 3)%nat ->
  (bioloid_command (SerialReceiveCommand (receive (77 :: cs ++ [13]) st))
   = COMMAND_MOTIONPAGE /\
   current_motion_page (SerialReceiveCommand (receive (77 :: cs ++ [13]) st))
   = decimal (List.map (fun c => c - 48) cs) mod 256 /\
   (decimal (List.map (fun c => c - 48) cs) <= 255 ->
    current_motion_page (SerialReceiveCommand (receive (77 :: cs ++ [13]) st))
    = decimal (List.map (fun c => c - 48) cs)) /\
   last_motion_page (SerialReceiveCommand (receive (77 :: cs ++ [13]) st))
   = current_motion_page st) /\
  bioloid_command (SerialReceiveCommand (receive [77; 88; 13] st))
  = COMMAND_NOT_FOUND.
Proof.
  intros Hok Hempty Hsize Hdigits Hlen. split.
  - assert (Hdata : Forall (fun b => b <> 13) cs)
      by (eapply Forall_impl; [exact Hdigits | intros c Hc; cbv beta in *; lia]).
    assert (Hpage :
      current_motion_page
        (SerialReceiveCommand (receive (77 :: cs ++ [13]) st))
      = decimal (List.map (fun c => c - 48) cs) mod 256 /\
      bioloid_command (SerialReceiveCommand (receive (77 :: cs ++ [13]) st))
      = COMMAND_MOTIONPAGE /\
      last_motion_page (SerialReceiveCommand (receive (77 :: cs ++ [13]) st))
      = current_motion_page st /\
      0 <= decimal (List.map (fun c => c - 48) cs)).
    { destruct cs as [|a [|b [|c [|d cs]]]]; simpl in Hlen; try lia.
      - apply Forall_cons in Hdigits as [Ha _].
        destruct (motion_page_token st [a] a 32 32 Hok Hempty Hdata)
          as (T1 & T2 & T3); try (simpl; lia).
        { cbn [hd tl app].
          rewrite fold_upper_below, blank_pad_other; lia. }
        { reflexivity. }
        { reflexivity. }
        rewrite T1, T2, T3. cbn. split; [|split; [|split]]; auto; lia.
      - apply Forall_cons in Hdigits as [Ha Hdigits].
        apply Forall_cons in Hdigits as [Hb _].
        destruct (motion_page_token st [a; b] a b 32 Hok Hempty Hdata)
          as (T1 & T2 & T3); try (simpl; lia).
        { cbn [hd tl app].
          rewrite fold_upper_below, blank_pad_other; lia. }
        { cbn [hd tl app].
          rewrite fold_upper_below, blank_pad_other; lia. }
        { reflexivity. }
        rewrite T1, T2, T3.
        destruct (Z.leb_spec 48 b); [|exfalso; lia].
        destruct (Z.leb_spec b 57); [|exfalso; lia].
        cbn. rewrite page_step.
        unfold to_uint8. rewrite (Z.mod_small (a - 48)) by lia.
        split; [|split; [|split]]; auto; lia.
      - apply Forall_cons in Hdigits as [Ha Hdigits].
        apply Forall_cons in Hdigits as [Hb Hdigits].
        apply Forall_cons in Hdigits as [Hc _].
        destruct (motion_page_token st [a; b; c] a b c Hok Hempty Hdata)
          as (T1 & T2 & T3); try (simpl; lia).
        { cbn [hd tl app].
          rewrite fold_upper_below, blank_pad_other; lia. }
        { cbn [hd tl app].
          rewrite fold_upper_below, blank_pad_other; lia. }
        { cbn [hd tl app].
          rewrite fold_upper_below, blank_pad_other; lia. }
        rewrite T1, T2, T3.
        destruct (Z.leb_spec 48 b); [|exfalso; lia].
        destruct (Z.leb_spec b 57); [|exfalso; lia].
        destruct (Z.leb_spec 48 c); [|exfalso; lia].
        destruct (Z.leb_spec c 57); [|exfalso; lia].
        cbn. rewrite !page_step.
        unfold to_uint8. rewrite (Z.mod_small (a - 48)) by lia.
        rewrite (Z.mod_small (10 * (a - 48) + (b - 48))) by lia.
        split; [|split; [|split]]; auto; lia. }
    destruct Hpage as (P1 & P2 & P3 & P4).
    split; [exact P2|]. split; [exact P1|]. split; [|exact P3].
    intros Hsmall. rewrite P1. apply Z.mod_small. lia.
  - destruct (dispatch_frame [77; 88] st Hok Hempty)
      as (st1 & _ & (D1 & _)).
    { repeat constructor; lia. }
    { simpl. lia. }
    change ([77; 88] ++ [13]) with [77; 88; 13] in D1.
    rewrite D1. cbn [hd tl app].
    change (fold_upper 77) with 77.
    change (blank_pad (fold_upper 88)) with 88.
    change (blank_pad (fold_upper 255)) with 32.
    rewrite scan_not_found.
    + unfold motion_page_case. cbn. rewrite Z.eqb_refl. reflexivity.
    + intros j Hj.
      apply (table_entries (fun e => strcmp e [77; 88; 32; 32] <> 0) 20);
        [| lia | lia ].
      let l := eval vm_compute in (take 20 COMMANDSTR_POINTER) in
      change (take 20 COMMANDSTR_POINTER) with l.
      repeat constructor; intros E; vm_compute in E; discriminate E.
Qed.

(** ** Further properties of the ring buffer *)

Lemma put_keeps_ring_ok (d : Z) (q : ring) :
  ring_ok q -> ring_ok (serial_put_queue d q).
Proof.
  intros Hok.
  destruct (Z.eq_dec (serial_get_qstate q) (MAXNUM_SERIALBUFF - 1)) as [E|NE].
  - rewrite (put_full d q E). exact Hok.
  - apply (put_accepted d q Hok NE).
Qed.

(** Pushing any list of bytes: what fits is appended, the rest is lost. *)
Lemma push_all_contents (ds : list Z) (q : ring) :
  ring_ok q ->
  ring_ok (push_all ds q) /\
  contents (push_all ds q)
  = take (Z.to_nat (MAXNUM_SERIALBUFF - 1)) (contents q ++ ds).
Proof.
  revert q. induction ds as [|d ds IH]; intros q Hok.
  - simpl. split; [exact Hok|]. rewrite app_nil_r.
    symmetry. apply take_ge.
    pose proof (contents_length q Hok). pose proof (qstate_range q Hok). lia.
  - simpl.
    destruct (Z.eq_dec (serial_get_qstate q) (MAXNUM_SERIALBUFF - 1)) as [E|NE].
    + rewrite (put_full d q E).
      destruct (IH q Hok) as (Hok' & Hc). split; [exact Hok'|].
      rewrite Hc.
      pose proof (contents_length q Hok) as Hl.
      rewrite !take_app_le by lia. reflexivity.
    + destruct (put_accepted d q Hok NE) as (Hok1 & _ & Hc1).
      destruct (IH _ Hok1) as (Hok' & Hc). split; [exact Hok'|].
      rewrite Hc, Hc1, <- app_assoc. reflexivity.
Qed.

Lemma contents_nil_empty (q : ring) :
  ring_ok q -> contents q = [] ->
  gbSerialBufferHead q = gbSerialBufferTail q.
Proof.
  intros Hok E. apply qstate_zero_iff; [exact Hok|].
  rewrite <- (contents_length q Hok), E. reflexivity.
Qed.

Lemma serial_read_loop_spec (n c : nat) (pData : list Z) (q : ring) :
  ring_ok q ->
  (n <= length (contents q))%nat ->
  (c + n <= length pData)%nat ->
  exists q',
    serial_read_loop n (Z.of_nat c) pData q
    = (take c pData ++ take n (contents q) ++ drop (c + n) pData, q') /\
    ring_ok q' /\
    contents q' = drop n (contents q).
Proof.
  revert c pData q. induction n as [|n IH]; intros c pData q Hok Hn Hc.
  - exists q. simpl. rewrite Nat.add_0_r, take_drop. auto.
  - destruct (get_contents q Hok) as (q1 & Hg & Hok1 & Hc1).
    destruct (contents q) as [|x r] eqn:Ec; [simpl in Hn; lia|].
    simpl in Hg, Hc1, Hn.
    destruct (IH (S c) (<[c:=x]> pData) q1 Hok1) as (q' & Hl & Hok' & Hc').
    { rewrite Hc1. lia. }
    { rewrite length_insert. lia. }
    exists q'. simpl. rewrite Hg, Nat2Z.id.
    replace (Z.of_nat c + 1) with (Z.of_nat (S c)) by lia.
    rewrite Hl, Hc'. split; [|split; [exact Hok' | rewrite Hc1; reflexivity]].
    f_equal.
    rewrite (take_S_r _ c x) by (apply list_lookup_insert_eq; lia).
    rewrite take_insert_ge by lia.
    rewrite drop_insert_lt by lia.
    rewrite Hc1, <- app_assoc.
    replace (S c + n)%nat with (c + S n)%nat by lia. reflexivity.
Qed.

Lemma serial_read_spec (pData : list Z) (numbyte : Z) (q : ring) :
  ring_ok q ->
  0 <= numbyte <= Z.of_nat (length pData) ->
  exists q',
    serial_read pData numbyte q
    = (Z.min numbyte (serial_get_qstate q),
       take (Z.to_nat (Z.min numbyte (serial_get_qstate q))) (contents q)
         ++ drop (Z.to_nat (Z.min numbyte (serial_get_qstate q))) pData,
       q') /\
    ring_ok q' /\
    contents q'
    = drop (Z.to_nat (Z.min numbyte (serial_get_qstate q))) (contents q).
Proof.
  intros Hok Hnum. unfold serial_read.
  pose proof (qstate_range q Hok) as Hr.
  pose proof (contents_length q Hok) as Hl.
  destruct (Z.eqb_spec (gbSerialBufferHead q) (gbSerialBufferTail q)) as [E|NE].
  - rewrite (proj2 (qstate_zero_iff q Hok) E).
    replace (Z.min numbyte 0) with 0 by lia.
    exists q. simpl. auto.
  - set (k := Z.min numbyte (serial_get_qstate q)).
    assert (Hk : (if serial_get_qstate q >? numbyte
                  then numbyte else serial_get_qstate q) = k).
    { unfold k. destruct (Z.gtb_spec (serial_get_qstate q) numbyte); lia. }
    rewrite Hk.
    destruct (serial_read_loop_spec (Z.to_nat k) 0 pData q Hok)
      as (q' & Hloop & Hok' & Hc'); [lia | lia |].
    change (Z.of_nat 0) with 0 in Hloop. rewrite Hloop.
    exists q'. simpl. split; [|auto].
    unfold to_uint8. rewrite Z.mod_small by lia. reflexivity.
Qed.

(** X1. [serial_read] with a request of [numbyte >= 0] bytes into an
    array that can take them: it returns the number of bytes delivered,
    the smaller of the request and the occupied count; the oldest waiting
    bytes are stored at the front of the array in arrival order and the
    rest of the array is untouched; the bytes not delivered remain in the
    ring, in order. *)
Theorem serial_read_delivers_oldest (pData : list Z) (numbyte : Z) (q : ring) :
  ring_ok q ->
  0 <= numbyte <= Z.of_nat (length pData) ->
  let k := Z.to_nat (Z.min numbyte (serial_get_qstate q)) in
  fst (fst (serial_read pData numbyte q)) = Z.of_nat k /\
  snd (fst (serial_read pData numbyte q))
  = take k (contents q) ++ drop k pData /\
  ring_ok (snd (serial_read pData numbyte q)) /\
  contents (snd (serial_read pData numbyte q)) = drop k (contents q).
Proof.
  intros Hok Hnum k.
  destruct (serial_read_spec pData numbyte q Hok Hnum) as (q' & E & Hok' & Hc).
  rewrite E. simpl. pose proof (qstate_range q Hok).
  split; [unfold k; lia | auto].
Qed.

(** X2. [serial_read] with a request of zero or fewer bytes dequeues
    nothing and writes nothing to the array.  On an empty ring it returns
    0; on a non-empty ring it returns the request itself converted to
    [unsigned char], so a negative request (other than a multiple of
    256) reports a non-zero count. *)
Theorem serial_read_non_positive (pData : list Z) (numbyte : Z) (q : ring) :
  ring_ok q ->
  numbyte <= 0 ->
  serial_read pData numbyte q
  = (if gbSerialBufferHead q =? gbSerialBufferTail q
     then 0 else numbyte mod 256,
     pData, q).
Proof.
  intros Hok Hnum. unfold serial_read.
  destruct (Z.eqb_spec (gbSerialBufferHead q) (gbSerialBufferTail q)) as [E|NE].
  - reflexivity.
  - pose proof (qstate_range q Hok) as Hr.
    assert (Hpos : serial_get_qstate q <> 0)
      by (rewrite qstate_zero_iff by exact Hok; exact NE).
    destruct (Z.gtb_spec (serial_get_qstate q) numbyte); [|lia].
    replace (Z.to_nat numbyte) with O by lia. reflexivity.
Qed.

(** X3. Round trip through the ring: bytes pushed on an empty ring, as
    many as fit, are returned by one [serial_read] of that many bytes, in
    push order, and the ring is empty again. *)
Theorem push_then_serial_read (ds pData : list Z) (q : ring) :
  ring_ok q ->
  gbSerialBufferHead q = gbSerialBufferTail q ->
  Z.of_nat (length ds) <= MAXNUM_SERIALBUFF - 1 ->
  (length ds <= length pData)%nat ->
  fst (serial_read pData (Z.of_nat (length ds)) (push_all ds q))
  = (Z.of_nat (length ds), ds ++ drop (length ds) pData) /\
  gbSerialBufferHead
    (snd (serial_read pData (Z.of_nat (length ds)) (push_all ds q)))
  = gbSerialBufferTail
      (snd (serial_read pData (Z.of_nat (length ds)) (push_all ds q))).
Proof.
  intros Hok Hempty Hfit Hroom.
  assert (H0 : serial_get_qstate q = 0)
    by (apply qstate_zero_iff; assumption).
  destruct (push_all_fits ds q Hok ltac:(lia)) as (Hok1 & Hn1 & Hc1).
  rewrite (contents_empty q Hempty) in Hc1. simpl in Hc1.
  destruct (serial_read_spec pData (Z.of_nat (length ds)) (push_all ds q) Hok1)
    as (q' & E & Hok' & Hc'); [lia|].
  assert (Hk : Z.min (Z.of_nat (length ds)) (serial_get_qstate (push_all ds q))
               = Z.of_nat (length ds)) by lia.
  rewrite Hk, Nat2Z.id, Hc1 in *.
  rewrite E. simpl. rewrite take_ge by lia. split; [reflexivity|].
  apply contents_nil_empty; [exact Hok'|].
  rewrite Hc'. apply drop_all.
Qed.

(** X4. [std_getchar] waits exactly when the ring is empty; otherwise it
    removes the oldest waiting byte and returns it, a carriage return
    being returned as a line feed. *)
Theorem std_getchar_oldest (q : ring) :
  ring_ok q ->
  (std_getchar q = None <->
   gbSerialBufferHead q = gbSerialBufferTail q) /\
  (forall x rest, contents q = x :: rest ->
     exists q',
       std_getchar q = Some (if x =? 13 then 10 else x, q') /\
       ring_ok q' /\ contents q' = rest).
Proof.
  intros Hok. unfold std_getchar. split.
  - destruct (Z.eqb_spec (serial_get_qstate q) 0) as [E|NE].
    + split; [intros _; apply qstate_zero_iff; assumption | reflexivity].
    + destruct (serial_get_queue q) as [rx q'].
      split; [discriminate|].
      intros E. exfalso. apply NE. apply qstate_zero_iff; assumption.
  - intros x rest Hc.
    pose proof (contents_length q Hok) as Hl. rewrite Hc in Hl. simpl in Hl.
    destruct (Z.eqb_spec (serial_get_qstate q) 0) as [E|NE]; [lia|].
    destruct (get_contents q Hok) as (q' & Hg & Hok' & Hc').
    rewrite Hg, Hc. rewrite Hc in Hc'. simpl. exists q'. auto.
Qed.

(** ** Further properties of the interrupt routine *)

Lemma interrupt_queue (b : Z) (st : state) :
  queue (USART1_RX_vect b st) = serial_put_queue (stored_byte b) (queue st).
Proof.
  unfold USART1_RX_vect, stored_byte.
  destruct (b =? 13); reflexivity.
Qed.

Lemma interrupt_sent (b : Z) (st : state) :
  UDR1_sent (USART1_RX_vect b st) = UDR1_sent st ++ echo_of b.
Proof.
  unfold USART1_RX_vect, echo_of, std_putchar, serial_write.
  destruct (b =? 13).
  - cbn. rewrite <- app_assoc. reflexivity.
  - destruct (b =? 10); reflexivity.
Qed.

Lemma interrupt_commands (b : Z) (st : state) :
  same_commands (USART1_RX_vect b st) st /\
  flag_receive_ready (USART1_RX_vect b st)
  = if b =? 13 then 1 else flag_receive_ready st.
Proof.
  unfold USART1_RX_vect, same_commands.
  destruct (b =? 13); cbn; auto.
Qed.

Lemma receive_queue (bs : list Z) (st : state) :
  queue (receive bs st) = push_all (List.map stored_byte bs) (queue st).
Proof.
  revert st. induction bs as [|b bs IH]; intros st; [reflexivity|].
  change (receive (b :: bs) st) with (receive bs (USART1_RX_vect b st)).
  rewrite IH, interrupt_queue. reflexivity.
Qed.

Lemma receive_sent (bs : list Z) (st : state) :
  UDR1_sent (receive bs st) = UDR1_sent st ++ flat_map echo_of bs.
Proof.
  revert st. induction bs as [|b bs IH]; intros st.
  - simpl. rewrite app_nil_r. reflexivity.
  - change (receive (b :: bs) st) with (receive bs (USART1_RX_vect b st)).
    rewrite IH, interrupt_sent, <- app_assoc. reflexivity.
Qed.

Lemma stored_byte_not_cr (b : Z) : stored_byte b <> 13.
Proof.
  unfold stored_byte. destruct (Z.eqb_spec b 13); [discriminate | assumption].
Qed.

(** X5. Whatever bytes arrive, in whatever number: the ring afterwards
    holds what was waiting followed by the arrived bytes, each carriage
    return replaced by the [0xFF] sentinel, cut after
    [MAXNUM_SERIALBUFF - 1] bytes.  Bytes that arrive while the ring is
    full are lost, the bytes already waiting are never overwritten. *)
Theorem received_bytes_in_ring (bs : list Z) (st : state) :
  ring_ok (queue st) ->
  ring_ok (queue (receive bs st)) /\
  contents (queue (receive bs st))
  = take (Z.to_nat (MAXNUM_SERIALBUFF - 1))
         (contents (queue st) ++ List.map stored_byte bs).
Proof.
  intros Hok. rewrite receive_queue. apply push_all_contents. exact Hok.
Qed.

(** X6. The echo does not depend on the ring (a byte lost to a full ring
    is echoed all the same): each received byte is echoed in arrival
    order, a carriage return as CR LF space, a line feed as CR LF and any
    other byte as itself.  Bytes that are neither CR nor LF are echoed
    verbatim. *)
Theorem echo_of_received_bytes (bs : list Z) (st : state) :
  UDR1_sent (receive bs st) = UDR1_sent st ++ flat_map echo_of bs /\
  (Forall (fun b => b <> 13 /\ b <> 10) bs ->
   UDR1_sent (receive bs st) = UDR1_sent st ++ bs).
Proof.
  split; [apply receive_sent|].
  intros H. rewrite receive_sent. f_equal.
  induction H as [|b bs [H13 H10] _ IH]; [reflexivity|].
  simpl. rewrite IH. unfold echo_of.
  destruct (Z.eqb_spec b 13); [contradiction|].
  destruct (Z.eqb_spec b 10); [contradiction|]. reflexivity.
Qed.

(** X7. The interrupt routine never stores a carriage return.  If no
    carriage return waits in the ring, none waits after any bytes have been
    received, and [std_getchar] then returns the oldest waiting byte as it
    is stored: a received carriage return is read back as [0xFF], never as
    a line feed. *)
Theorem no_carriage_return_in_ring (bs : list Z) (st : state) :
  ring_ok (queue st) ->
  Forall (fun b => b <> 13) (contents (queue st)) ->
  Forall (fun b => b <> 13) (contents (queue (receive bs st))) /\
  (forall x rest,
     contents (queue (receive bs st)) = x :: rest ->
     exists q', std_getchar (queue (receive bs st)) = Some (x, q')).
Proof.
  intros Hok Hfree.
  assert (Hrok : ring_ok (queue (receive bs st)))
    by (rewrite receive_queue; apply push_all_contents; exact Hok).
  assert (Hfree' : Forall (fun b => b <> 13) (contents (queue (receive bs st)))).
  { rewrite receive_queue.
    rewrite (proj2 (push_all_contents _ _ Hok)).
    apply Forall_take, Forall_app. split; [exact Hfree|].
    apply List.Forall_map. apply Forall_forall. intros b _.
    apply stored_byte_not_cr. }
  split; [exact Hfree'|].
  intros x rest Hc.
  pose proof (contents_length _ Hrok) as Hl. rewrite Hc in Hl. simpl in Hl.
  destruct (get_contents _ Hrok) as (q' & Hg & _).
  rewrite Hc in Hfree'. apply Forall_cons in Hfree' as [Hx _].
  exists q'. unfold std_getchar.
  destruct (Z.eqb_spec (serial_get_qstate (queue (receive bs st))) 0); [lia|].
  rewrite Hg, Hc. simpl.
  destruct (Z.eqb_spec x 13); [contradiction | reflexivity].
Qed.

(** X8. On a full ring the interrupt routine stores nothing, the ring is
    left as it is, yet the byte is echoed and a carriage return still
    raises [flag_receive_ready], although its sentinel is lost. *)
Theorem interrupt_on_full_ring (b : Z) (st : state) :
  serial_get_qstate (queue st) = MAXNUM_SERIALBUFF - 1 ->
  queue (USART1_RX_vect b st) = queue st /\
  UDR1_sent (USART1_RX_vect b st) = UDR1_sent st ++ echo_of b /\
  flag_receive_ready (USART1_RX_vect b st)
  = if b =? 13 then 1 else flag_receive_ready st.
Proof.
  intros Hfull.
  rewrite interrupt_queue, interrupt_sent, (put_full _ _ Hfull).
  split; [reflexivity|]. split; [reflexivity|].
  apply interrupt_commands.
Qed.

(** X9. The interrupt routine never writes the command variables, and
    [flag_receive_ready] is raised by a carriage return only: after any
    received bytes the command and motion page variables are as before,
    and the flag is 1 if a carriage return was among the bytes and
    unchanged otherwise. *)
Theorem interrupt_leaves_commands (bs : list Z) (st : state) :
  same_commands (receive bs st) st /\
  flag_receive_ready (receive bs st)
  = if existsb (fun b => b =? 13) bs then 1 else flag_receive_ready st.
Proof.
  revert st. induction bs as [|b bs IH]; intros st.
  - unfold same_commands. simpl. auto.
  - change (receive (b :: bs) st) with (receive bs (USART1_RX_vect b st)).
    destruct (IH (USART1_RX_vect b st)) as ((I1 & I2 & I3 & I4) & If).
    destruct (interrupt_commands b st) as ((C1 & C2 & C3 & C4) & Cf).
    split.
    + unfold same_commands. rewrite I1, I2, I3, I4. auto.
    + rewrite If, Cf. simpl.
      destruct (b =? 13), (existsb (fun b0 => b0 =? 13) bs); reflexivity.
Qed.

(** ** Further properties of the dispatcher *)

(** The loop writes the two command variables only. *)
Lemma command_loop_frame (n : nat) (i : Z) (command : list Z) (st : state) :
  queue (command_loop n i command st) = queue st /\
  flag_receive_ready (command_loop n i command st) = flag_receive_ready st /\
  current_motion_page (command_loop n i command st) = current_motion_page st /\
  last_motion_page (command_loop n i command st) = last_motion_page st /\
  UDR1_sent (command_loop n i command st) = UDR1_sent st.
Proof.
  revert i st. induction n as [|n IH]; intros i st; [simpl; auto 10|].
  simpl. destruct (strcmp (command_string i) command =? 0).
  - cbn. auto 10.
  - destruct (IH (to_uint8 (i + 1))
                 (if i =? NUMBER_OF_COMMANDS - 1
                  then set_bioloid_command (to_uint8 COMMAND_NOT_FOUND) st
                  else st)) as (E1 & E2 & E3 & E4 & E5).
    rewrite E1, E2, E3, E4, E5.
    destruct (i =? NUMBER_OF_COMMANDS - 1); cbn; auto 10.
Qed.

Lemma motion_page_case_frame (c1 c2 c3 c4 : Z) (st : state) :
  queue (motion_page_case c1 c2 c3 c4 st) = queue st /\
  flag_receive_ready (motion_page_case c1 c2 c3 c4 st)
  = flag_receive_ready st /\
  UDR1_sent (motion_page_case c1 c2 c3 c4 st) = UDR1_sent st.
Proof.
  unfold motion_page_case.
  repeat match goal with
    | |- context [if ?b then _ else _] => destruct b
    end; cbn; auto.
Qed.

Lemma five_tails (A : Type) (l : list A) :
  tl (tl (tl (tl (tl l)))) = drop 5 l.
Proof. destruct l as [|a [|b [|c [|d [|e l]]]]]; reflexivity. Qed.

(** A triggered poll, field by field. *)
Lemma dispatch_fields (st : state) (c1 c2 c3 c4 : Z) (q : ring) :
  flag_receive_ready st <> 0 ->
  read_command (queue st) = (c1, c2, c3, c4, q) ->
  queue (SerialReceiveCommand st) = q /\
  flag_receive_ready (SerialReceiveCommand st) = 0.
Proof.
  intros Hflag Hread.
  rewrite (dispatch_unfold st c1 c2 c3 c4 q Hflag Hread).
  match goal with
  | |- context [acknowledge c1 c2 c3 c4 ?s] =>
      destruct (acknowledge_state c1 c2 c3 c4 s) as (A1 & _ & _ & A4 & _)
  end.
  rewrite A1, A4. cbn.
  rewrite (proj1 (motion_page_case_frame _ _ _ _ _)).
  rewrite (proj1 (command_loop_frame _ _ _ _)). auto.
Qed.

Lemma poll_clears_flag (st : state) :
  flag_receive_ready (SerialReceiveCommand st) = 0.
Proof.
  destruct (Z.eq_dec (flag_receive_ready st) 0) as [E|NE].
  - unfold SerialReceiveCommand. rewrite E. exact E.
  - destruct (read_command (queue st)) as [[[[c1 c2] c3] c4] q] eqn:Hread.
    apply (dispatch_fields st c1 c2 c3 c4 q NE Hread).
Qed.

(** X10. A poll always leaves [flag_receive_ready] clear, and polling
    twice in a row is the same as polling once: the second poll changes
    nothing, whatever the first one found. *)
Theorem poll_twice_is_poll_once (st : state) :
  flag_receive_ready (SerialReceiveCommand st) = 0 /\
  SerialReceiveCommand (SerialReceiveCommand st) = SerialReceiveCommand st.
Proof.
  split; [apply poll_clears_flag|].
  unfold SerialReceiveCommand at 1.
  rewrite poll_clears_flag. reflexivity.
Qed.

Lemma poll_queue (st : state) :
  ring_ok (queue st) ->
  flag_receive_ready st <> 0 ->
  ring_ok (queue (SerialReceiveCommand st)) /\
  contents (queue (SerialReceiveCommand st)) = drop 5 (contents (queue st)).
Proof.
  intros Hok Hflag.
  destruct (read_command_contents _ Hok) as (q & Hread & Hok' & Hc).
  rewrite (proj1 (dispatch_fields st _ _ _ _ q Hflag Hread)).
  rewrite Hc, five_tails. auto.
Qed.

(** X11. A triggered poll always takes five bytes from the ring, or all
    of them if fewer wait: the four characters of the command and the
    flushed byte, whatever their values and wherever the sentinel stands
    among them.  The bytes behind them stay in the ring, in order. *)
Theorem poll_takes_five_bytes (st : state) :
  ring_ok (queue st) ->
  flag_receive_ready st <> 0 ->
  ring_ok (queue (SerialReceiveCommand st)) /\
  contents (queue (SerialReceiveCommand st)) = drop 5 (contents (queue st)).
Proof. apply poll_queue. Qed.

(** X12. A frame received on an empty ring and then dispatched: with at
    most four payload bytes the ring is empty again after the poll; with
    more, the payload bytes from the sixth on and the sentinel are left
    waiting (the fifth payload byte is flushed), and will be read as the
    start of the next command. *)
Theorem ring_after_frame (payload : list Z) (st : state) :
  ring_ok (queue st) ->
  gbSerialBufferHead (queue st) = gbSerialBufferTail (queue st) ->
  Forall (fun b => b <> 13) payload ->
  Z.of_nat (length payload) + 2 <= MAXNUM_SERIALBUFF ->
  contents (queue (SerialReceiveCommand (receive (payload ++ [13]) st)))
  = drop 5 (payload ++ [255]) /\
  ((length payload <= 4)%nat ->
   gbSerialBufferHead
     (queue (SerialReceiveCommand (receive (payload ++ [13]) st)))
   = gbSerialBufferTail
       (queue (SerialReceiveCommand (receive (payload ++ [13]) st)))) /\
  ((5 <= length payload)%nat ->
   contents (queue (SerialReceiveCommand (receive (payload ++ [13]) st)))
   = drop 5 payload ++ [255]).
Proof.
  intros Hok Hempty Hdata Hfit.
  destruct (receive_frame payload st Hok Hempty Hdata Hfit)
    as (Rok & Rc & _ & _ & Rf & _).
  destruct (poll_queue (receive (payload ++ [13]) st) Rok ltac:(lia))
    as (Pok & Pc).
  rewrite Rc in Pc. split; [exact Pc|]. split.
  - intros Hshort. apply contents_nil_empty; [exact Pok|].
    rewrite Pc. apply drop_ge. rewrite length_app. simpl. lia.
  - intros Hlong. rewrite Pc. apply drop_app_le. lia.
Qed.

Lemma command_loop_same (n : nat) (i : Z) (command : list Z)
      (s1 s2 : state) :
  same_commands s1 s2 ->
  same_commands (command_loop n i command s1) (command_loop n i command s2).
Proof.
  revert i s1 s2. induction n as [|n IH]; intros i s1 s2 H; [exact H|].
  simpl. destruct H as (H1 & H2 & H3 & H4).
  destruct (strcmp (command_string i) command =? 0).
  - unfold same_commands. cbn. auto.
  - apply IH. unfold same_commands.
    destruct (i =? NUMBER_OF_COMMANDS - 1); cbn; auto.
Qed.

Lemma motion_page_case_same (c1 c2 c3 c4 : Z) (s1 s2 : state) :
  same_commands s1 s2 ->
  same_commands (motion_page_case c1 c2 c3 c4 s1)
                (motion_page_case c1 c2 c3 c4 s2).
Proof.
  intros (H1 & H2 & H3 & H4). unfold motion_page_case, same_commands.
  rewrite H1.
  repeat match goal with
    | |- context [if ?b then _ else _] => destruct b
    end; cbn; rewrite ?H3; auto.
Qed.

(** X16. Only a command that starts with ['M'] and a digit touches the
    motion pages: for any other command read from the ring, matched or
    not, a triggered poll leaves [current_motion_page] and
    [last_motion_page] as they were. *)
Theorem motion_pages_untouched (st : state) (c1 c2 c3 c4 : Z) (q : ring) :
  flag_receive_ready st <> 0 ->
  read_command (queue st) = (c1, c2, c3, c4, q) ->
  ~ (c1 = 77 /\ 48 <= c2 <= 57) ->
  current_motion_page (SerialReceiveCommand st) = current_motion_page st /\
  last_motion_page (SerialReceiveCommand st) = last_motion_page st.
Proof.
  intros Hflag Hread Hnot.
  destruct (dispatch_command_state st c1 c2 c3 c4 q Hflag Hread)
    as (_ & _ & D3 & D4).
  rewrite D3, D4.
  assert (Hskip : forall s, motion_page_case c1 c2 c3 c4 s = s).
  { intros s. unfold motion_page_case.
    destruct (bioloid_command s =? COMMAND_NOT_FOUND); [|reflexivity].
    destruct (Z.eqb_spec c1 77); [|reflexivity].
    destruct (Z.leb_spec 48 c2); [|reflexivity].
    destruct (Z.leb_spec c2 57); [|reflexivity].
    exfalso. apply Hnot. lia. }
  rewrite Hskip.
  destruct (command_loop_frame (Z.to_nat NUMBER_OF_COMMANDS) 0
              [c1; c2; c3; c4] (set_queue q st)) as (_ & _ & E3 & E4 & _).
  rewrite E3, E4. auto.
Qed.

Lemma fold_upper_hd (l : list Z) :
  fold_upper (hd 255 l) = hd 255 (List.map fold_upper l).
Proof. destruct l; reflexivity. Qed.

Lemma map_tl (f : Z -> Z) (l : list Z) :
  List.map f (tl l) = tl (List.map f l).
Proof. destruct l; reflexivity. Qed.

(** Two frames received on an empty ring whose payloads yield the same
    four characters leave the same command variables. *)
Lemma same_characters_same_commands (p1 p2 : list Z) (st : state) :
  ring_ok (queue st) ->
  gbSerialBufferHead (queue st) = gbSerialBufferTail (queue st) ->
  Forall (fun b => b <> 13) p1 ->
  Forall (fun b => b <> 13) p2 ->
  Z.of_nat (length p1) + 2 <= MAXNUM_SERIALBUFF ->
  Z.of_nat (length p2) + 2 <= MAXNUM_SERIALBUFF ->
  fold_upper (hd 255 (p1 ++ [255])) = fold_upper (hd 255 (p2 ++ [255])) ->
  blank_pad (fold_upper (hd 255 (tl (p1 ++ [255]))))
  = blank_pad (fold_upper (hd 255 (tl (p2 ++ [255])))) ->
  blank_pad (fold_upper (hd 255 (tl (tl (p1 ++ [255])))))
  = blank_pad (fold_upper (hd 255 (tl (tl (p2 ++ [255]))))) ->
  blank_pad (fold_upper (hd 255 (tl (tl (tl (p1 ++ [255]))))))
  = blank_pad (fold_upper (hd 255 (tl (tl (tl (p2 ++ [255])))))) ->
  same_commands (SerialReceiveCommand (receive (p1 ++ [13]) st))
                (SerialReceiveCommand (receive (p2 ++ [13]) st)).
Proof.
  intros Hok Hempty Hd1 Hd2 Hf1 Hf2 E1 E2 E3 E4.
  destruct (dispatch_frame p1 st Hok Hempty Hd1 Hf1)
    as (s1 & (S1 & S2 & S3 & S4) & (D1 & D2 & D3 & D4)).
  destruct (dispatch_frame p2 st Hok Hempty Hd2 Hf2)
    as (s2 & (T1 & T2 & T3 & T4) & (F1 & F2 & F3 & F4)).
  rewrite <- E1, <- E2, <- E3, <- E4 in F1, F2, F3, F4.
  assert (Hs : same_commands s1 s2)
    by (unfold same_commands; rewrite S1, S2, S3, S4, T1, T2, T3, T4; auto).
  apply (command_loop_same (Z.to_nat NUMBER_OF_COMMANDS) 0
           [fold_upper (hd 255 (p1 ++ [255]));
            blank_pad (fold_upper (hd 255 (tl (p1 ++ [255]))));
            blank_pad (fold_upper (hd 255 (tl (tl (p1 ++ [255])))));
            blank_pad (fold_upper (hd 255 (tl (tl (tl (p1 ++ [255]))))))])
    in Hs.
  apply (motion_page_case_same
           (fold_upper (hd 255 (p1 ++ [255])))
           (blank_pad (fold_upper (hd 255 (tl (p1 ++ [255])))))
           (blank_pad (fold_upper (hd 255 (tl (tl (p1 ++ [255]))))))
           (blank_pad (fold_upper (hd 255 (tl (tl (tl (p1 ++ [255])))))))) in Hs.
  destruct Hs as (H1 & H2 & H3 & H4).
  unfold same_commands.
  rewrite D1, D2, D3, D4, F1, F2, F3, F4. auto.
Qed.

(** X13. Commands are case-insensitive: two frames whose payloads differ
    only in the case of letters (their bytes agree after the case folding
    of the dispatcher), received on an empty ring and dispatched, leave the
    same current and previous command and the same motion pages. *)
Theorem commands_are_case_insensitive (p1 p2 : list Z) (st : state) :
  ring_ok (queue st) ->
  gbSerialBufferHead (queue st) = gbSerialBufferTail (queue st) ->
  Forall (fun b => b <> 13) p1 ->
  Forall (fun b => b <> 13) p2 ->
  Z.of_nat (length p1) + 2 <= MAXNUM_SERIALBUFF ->
  List.map fold_upper p1 = List.map fold_upper p2 ->
  same_commands (SerialReceiveCommand (receive (p1 ++ [13]) st))
                (SerialReceiveCommand (receive (p2 ++ [13]) st)).
Proof.
  intros Hok Hempty Hd1 Hd2 Hf1 Hmap.
  assert (Hlen : length p2 = length p1).
  { rewrite <- (length_map fold_upper p2), <- Hmap. apply length_map. }
  assert (Hl : List.map fold_upper (p1 ++ [255])
               = List.map fold_upper (p2 ++ [255]))
    by (rewrite !map_app, Hmap; reflexivity).
  apply same_characters_same_commands; try assumption; try lia;
    rewrite !fold_upper_hd, ?map_tl, Hl; reflexivity.
Qed.

(** X14. Trailing blanks are immaterial: a frame of one to three payload
    bytes and the same frame with a space appended (the next character of
    the four) leave the same current and previous command and the same
    motion pages. *)
Theorem trailing_blank_is_immaterial (p : list Z) (st : state) :
  ring_ok (queue st) ->
  gbSerialBufferHead (queue st) = gbSerialBufferTail (queue st) ->
  Forall (fun b => b <> 13) p ->
  (1 <= length p <= 3)%nat ->
  6 <= MAXNUM_SERIALBUFF ->
  same_commands (SerialReceiveCommand (receive (p ++ [13]) st))
                (SerialReceiveCommand (receive ((p ++ [32]) ++ [13]) st)).
Proof.
  intros Hok Hempty Hd Hlen Hsize.
  assert (Hd' : Forall (fun b => b <> 13) (p ++ [32])).
  { apply Forall_app. split; [exact Hd|]. repeat constructor. lia. }
  apply same_characters_same_commands; try assumption;
    try (rewrite ?length_app; simpl; lia);
    destruct p as [|a [|b [|c [|d p]]]]; simpl in Hlen; try lia;
    reflexivity.
Qed.

(** The entries of the table: four characters each, blanks and upper
    case letters only. *)
Lemma table_entry_shape (i : Z) :
  0 <= i < 20 ->
  exists a b c d,
    command_string i = [a; b; c; d] /\
    32 <= a <= 90 /\ 32 <= b <= 90 /\ 32 <= c <= 90 /\ 32 <= d <= 90.
Proof.
  intros Hi.
  apply (table_entries
           (fun e => exists a b c d,
                e = [a; b; c; d] /\
                32 <= a <= 90 /\ 32 <= b <= 90 /\
                32 <= c <= 90 /\ 32 <= d <= 90) 20); [| lia | lia ].
  let l := eval vm_compute in (take 20 COMMANDSTR_POINTER) in
  change (take 20 COMMANDSTR_POINTER) with l.
  repeat constructor;
    do 4 eexists; (split; [reflexivity | lia]).
Qed.

(** No two entries of the table compare equal. *)
Lemma table_entries_differ (j i : Z) :
  0 <= j < i -> i < 20 ->
  strcmp (command_string j) (command_string i) <> 0.
Proof.
  intros Hj Hi.
  assert (Hall :
    forallb (fun n =>
      forallb (fun m =>
        negb (strcmp (COMMANDSTR_POINTER !!! m) (COMMANDSTR_POINTER !!! n)
              =? 0))
        (seq 0 n))
      (seq 0 20) = true) by (vm_compute; reflexivity).
  rewrite forallb_forall in Hall.
  specialize (Hall (Z.to_nat i)). rewrite in_seq in Hall.
  specialize (Hall ltac:(lia)).
  rewrite forallb_forall in Hall.
  specialize (Hall (Z.to_nat j)). rewrite in_seq in Hall.
  specialize (Hall ltac:(lia)).
  unfold command_string. intros E. rewrite E in Hall. discriminate Hall.
Qed.

Lemma strcmp_same (s : list Z) : strcmp s s = 0.
Proof.
  induction s as [|a s IH]; [reflexivity|].
  simpl. rewrite Z.eqb_refl. destruct (a =? 0); [reflexivity | exact IH].
Qed.

(** X15. Every command of the table is recognised under its own index:
    the frame made of the four characters of entry [i], received on an
    empty ring and dispatched, sets [bioloid_command] to [i], moves the old
    command to [last_bioloid_command] and leaves the motion pages as they
    were. *)
Theorem table_commands_recognised (i : Z) (st : state) :
  ring_ok (queue st) ->
  gbSerialBufferHead (queue st) = gbSerialBufferTail (queue st) ->
  6 <= MAXNUM_SERIALBUFF ->
  0 <= i < NUMBER_OF_COMMANDS ->
  bioloid_command
    (SerialReceiveCommand (receive (command_string i ++ [13]) st)) = i /\
  last_bioloid_command
    (SerialReceiveCommand (receive (command_string i ++ [13]) st))
  = bioloid_command st /\
  current_motion_page
    (SerialReceiveCommand (receive (command_string i ++ [13]) st))
  = current_motion_page st /\
  last_motion_page
    (SerialReceiveCommand (receive (command_string i ++ [13]) st))
  = last_motion_page st.
Proof.
  intros Hok Hempty Hsize Hi.
  destruct (table_entry_shape i ltac:(lia))
    as (a & b & c & d & Hshape & Ha & Hb & Hc & Hd).
  assert (Hself : strcmp (command_string i) [a; b; c; d] = 0)
    by (rewrite <- Hshape; apply strcmp_same).
  assert (Hdiff : forall j, 0 <= j < i ->
            strcmp (command_string j) [a; b; c; d] <> 0)
    by (intros j Hj; rewrite <- Hshape; apply table_entries_differ; lia).
  rewrite Hshape.
  destruct (dispatch_frame [a; b; c; d] st Hok Hempty)
    as (st1 & (S1 & S2 & S3 & S4) & (D1 & D2 & D3 & D4)).
  { repeat constructor; lia. }
  { simpl. lia. }
  rewrite D1, D2, D3, D4. cbn [hd tl app].
  rewrite !fold_upper_below by lia. rewrite !blank_pad_other by lia.
  rewrite (scan_match [a; b; c; d] i) by (lia || assumption).
  rewrite motion_page_case_skipped by (cbn; lia).
  cbn. auto.
Qed.

(** ** The device over time *)

(** What a poll sends goes through [printf]. *)
Lemma poll_sent (st : state) :
  exists out, UDR1_sent (SerialReceiveCommand st) = printf out (UDR1_sent st).
Proof.
  destruct (Z.eq_dec (flag_receive_ready st) 0) as [E|NE].
  - exists []. unfold SerialReceiveCommand. rewrite E. reflexivity.
  - destruct (read_command (queue st)) as [[[[c1 c2] c3] c4] q] eqn:Hread.
    rewrite (dispatch_unfold st c1 c2 c3 c4 q NE Hread).
    unfold acknowledge at 1. cbn [UDR1_sent set_UDR1_sent set_flag_receive_ready].
    rewrite (proj2 (proj2 (motion_page_case_frame _ _ _ _ _))).
    rewrite (proj2 (proj2 (proj2 (proj2 (command_loop_frame _ _ _ _))))).
    cbn [UDR1_sent set_queue]. eexists. reflexivity.
Qed.

Lemma last_cons (x p : Z) (l : list Z) :
  List.last (x :: l) p = List.last l x.
Proof.
  revert x p. induction l as [|y l IH]; intros x p; [reflexivity|].
  change (List.last (x :: y :: l) p) with (List.last (y :: l) p).
  rewrite (IH y p), (IH y x). reflexivity.
Qed.

Lemma lf_follows_cr_app (p : Z) (a b : list Z) :
  lf_follows_cr p (a ++ b)
  = lf_follows_cr p a && lf_follows_cr (List.last a p) b.
Proof.
  revert p. induction a as [|x a IH]; intros p; [reflexivity|].
  simpl app. cbn [lf_follows_cr]. rewrite IH, last_cons.
  rewrite andb_assoc. reflexivity.
Qed.

Lemma std_putchar_line_ends (p c : Z) (sent : list Z) :
  lf_follows_cr p sent = true ->
  lf_follows_cr p (std_putchar c sent) = true.
Proof.
  intros H. unfold std_putchar, serial_write.
  destruct (Z.eqb_spec c 10) as [->|Hc]; rewrite lf_follows_cr_app, H.
  - reflexivity.
  - cbn. destruct (Z.eqb_spec c 10); [contradiction | reflexivity].
Qed.

Lemma printf_line_ends (p : Z) (out sent : list Z) :
  lf_follows_cr p sent = true ->
  lf_follows_cr p (printf out sent) = true.
Proof.
  revert sent. induction out as [|c out IH]; intros sent H; [exact H|].
  apply IH, std_putchar_line_ends, H.
Qed.

(** X17. Line endings on the line: through any sequence of interrupt
    runs and polls, every line feed that the device sends directly follows
    a carriage return (given that this holds of what was sent before).
    Echoes and acknowledgements all go through [std_putchar]. *)
Theorem line_feed_follows_carriage_return
        (acts : list activity) (p : Z) (st : state) :
  lf_follows_cr p (UDR1_sent st) = true ->
  lf_follows_cr p (UDR1_sent (operate acts st)) = true.
Proof.
  revert st. induction acts as [|[b|] acts IH]; intros st H; [exact H| |].
  - apply IH. rewrite interrupt_sent, lf_follows_cr_app, H.
    unfold echo_of.
    destruct (Z.eqb_spec b 13); [reflexivity|].
    destruct (Z.eqb_spec b 10) as [|Hb]; [reflexivity|].
    cbn. destruct (Z.eqb_spec b 10); [contradiction | reflexivity].
  - apply IH. destruct (poll_sent st) as (out & E). rewrite E.
    apply printf_line_ends, H.
Qed.

(** X18. The ring stays well-formed over time: through any sequence of
    interrupt runs and polls the storage keeps its size, both indices stay
    inside it, and the occupied count stays between 0 and
    [MAXNUM_SERIALBUFF - 1]. *)
Theorem ring_stays_well_formed (acts : list activity) (st : state) :
  ring_ok (queue st) ->
  ring_ok (queue (operate acts st)) /\
  0 <= serial_get_qstate (queue (operate acts st)) <= MAXNUM_SERIALBUFF - 1.
Proof.
  intros Hok.
  assert (H : ring_ok (queue (operate acts st))).
  { revert st Hok. induction acts as [|[b|] acts IH]; intros st Hok;
      [exact Hok| |].
    - apply IH. rewrite interrupt_queue. apply put_keeps_ring_ok, Hok.
    - apply IH.
      destruct (Z.eq_dec (flag_receive_ready st) 0) as [E|NE].
      + unfold SerialReceiveCommand. rewrite E. exact Hok.
      + apply (poll_queue st Hok NE). }
  split; [exact H|]. pose proof (qstate_range _ H). lia.
Qed.

(** X19. [serial_init] empties the ring whatever it held and makes it
    well-formed (for a storage of [MAXNUM_SERIALBUFF] slots): afterwards
    the occupied count is 0, [std_getchar] would wait, the command
    variables and the flag are 0, so that a poll does nothing; the motion
    pages are not reset. *)
Theorem serial_init_resets (st : state) :
  Z.of_nat (length (gbSerialBuffer (queue st))) = MAXNUM_SERIALBUFF ->
  ring_ok (queue (serial_init_call st)) /\
  serial_get_qstate (queue (serial_init_call st)) = 0 /\
  contents (queue (serial_init_call st)) = [] /\
  std_getchar (queue (serial_init_call st)) = None /\
  bioloid_command (serial_init_call st) = 0 /\
  last_bioloid_command (serial_init_call st) = 0 /\
  SerialReceiveCommand (serial_init_call st) = serial_init_call st /\
  current_motion_page (serial_init_call st) = current_motion_page st /\
  last_motion_page (serial_init_call st) = last_motion_page st.
Proof.
  intros Hlen. unfold serial_init_call. cbn.
  split; [unfold ring_ok; cbn; lia|].
  repeat split.
Qed.

Lemma put_keeps_head (d : Z) (q : ring) :
  gbSerialBufferHead (serial_put_queue d q) = gbSerialBufferHead q.
Proof.
  unfold serial_put_queue.
  destruct (serial_get_qstate q =? MAXNUM_SERIALBUFF - 1); [reflexivity|].
  destruct (gbSerialBufferTail q =? MAXNUM_SERIALBUFF - 1); reflexivity.
Qed.

Lemma get_keeps_tail (q : ring) :
  gbSerialBufferTail (snd (serial_get_queue q)) = gbSerialBufferTail q /\
  gbSerialBuffer (snd (serial_get_queue q)) = gbSerialBuffer q.
Proof.
  unfold serial_get_queue.
  destruct (gbSerialBufferHead q =? gbSerialBufferTail q); [auto|].
  destruct (gbSerialBufferHead q =? MAXNUM_SERIALBUFF - 1); auto.
Qed.

Lemma read_command_keeps_tail (q q' : ring) (c1 c2 c3 c4 : Z) :
  read_command q = (c1, c2, c3, c4, q') ->
  gbSerialBufferTail q' = gbSerialBufferTail q /\
  gbSerialBuffer q' = gbSerialBuffer q.
Proof.
  unfold read_command.
  pose proof (get_keeps_tail q) as (T1 & B1).
  destruct (serial_get_queue q) as [b1 q1].
  pose proof (get_keeps_tail q1) as (T2 & B2).
  destruct (serial_get_queue q1) as [b2 q2].
  pose proof (get_keeps_tail q2) as (T3 & B3).
  destruct (serial_get_queue q2) as [b3 q3].
  pose proof (get_keeps_tail q3) as (T4 & B4).
  destruct (serial_get_queue q3) as [b4 q4].
  pose proof (get_keeps_tail q4) as (T5 & B5).
  destruct (serial_get_queue q4) as [b5 q5].
  simpl in *. intros E. injection E as _ _ _ _ <-.
  split; congruence.
Qed.

(** X20. One writer per index: the interrupt routine never moves the head
    index, whatever bytes it receives, and a poll never moves the tail
    index nor writes the storage of the ring. *)
Theorem one_writer_per_index (bs : list Z) (st : state) :
  gbSerialBufferHead (queue (receive bs st)) = gbSerialBufferHead (queue st) /\
  gbSerialBufferTail (queue (SerialReceiveCommand st))
  = gbSerialBufferTail (queue st) /\
  gbSerialBuffer (queue (SerialReceiveCommand st)) = gbSerialBuffer (queue st).
Proof.
  split.
  - revert st. induction bs as [|b bs IH]; intros st; [reflexivity|].
    change (receive (b :: bs) st) with (receive bs (USART1_RX_vect b st)).
    rewrite IH, interrupt_queue. apply put_keeps_head.
  - destruct (Z.eq_dec (flag_receive_ready st) 0) as [E|NE].
    + unfold SerialReceiveCommand. rewrite E. auto.
    + destruct (read_command (queue st)) as [[[[c1 c2] c3] c4] q] eqn:Hread.
      rewrite (proj1 (dispatch_fields st c1 c2 c3 c4 q NE Hread)).
      apply (read_command_keeps_tail _ _ _ _ _ _ Hread).
Qed.

(** [serial_init] on the zeroed globals: only the line changes. *)
Lemma serial_init_on_zeroed_globals :
  serial_init_call serial_init = set_UDR1_sent [255] serial_init.
Proof. reflexivity. Qed.

End WithConstants.

(** ** The claims on concrete devices

    The instances below take a 128-byte receive buffer (8 bytes for the
    ring examples), the twenty commands of the table (nineteen where the
    scan is to end before entry 19), [0xFF] for "not found" and 19 for the
    Motion Page command. *)

Lemma ring_buffer_capacity_witness :
  let q := mkRing (replicate 8 0) 5 5 in
  let ds := [1; 2; 3; 4; 5; 6; 7] in
  (ring_ok 8 q /\
   gbSerialBufferHead q = gbSerialBufferTail q /\
   Z.of_nat (length ds) = 8 - 1) /\
  contents 8 (push_all 8 ds q) = ds /\
  serial_get_qstate 8 (push_all 8 ds q) = 7 /\
  serial_put_queue 8 9 (push_all 8 ds q) = push_all 8 ds q.
Proof.
  intros q ds.
  assert (Hok : ring_ok 8 q) by (unfold ring_ok; repeat split; vm_compute;
        (reflexivity || discriminate)).
  split; [split; [exact Hok | split; reflexivity]|].
  destruct (ring_buffer_capacity 8 ltac:(lia) q ds 9 Hok eq_refl eq_refl)
    as (_ & Hc & Hn & Hp & _).
  split; [exact Hc | split; [exact Hn | exact Hp]].
Defined.

Lemma fifo_order_and_count_witness :
  let q := mkRing (replicate 4 0) 2 2 in
  let ops := [Push 97; Push 98; Push 99; Push 100; Pop; Pop; Push 101;
              Pop; Pop; Pop; Push 102; Push 103; Pop; Push 104; Push 105] in
  (ring_ok 4 q /\ gbSerialBufferHead q = gbSerialBufferTail q) /\
  popped_bytes (fst (run 4 ops q))
  = take (length (popped_bytes (fst (run 4 ops q))))
         (accepted_bytes (fst (run 4 ops q))) /\
  serial_get_qstate 4 (snd (run 4 ops q))
  = Z.of_nat (length (accepted_bytes (fst (run 4 ops q))))
    - Z.of_nat (length (popped_bytes (fst (run 4 ops q)))).
Proof.
  intros q ops.
  assert (Hok : ring_ok 4 q) by (unfold ring_ok; repeat split; vm_compute;
        (reflexivity || discriminate)).
  split; [split; [exact Hok | reflexivity]|].
  exact (fifo_order_and_count 4 ltac:(lia) ops q Hok eq_refl).
Defined.

Lemma pop_on_empty_ring_witness :
  gbSerialBufferHead (mkRing [7; 8; 9; 10] 2 2)
  = gbSerialBufferTail (mkRing [7; 8; 9; 10] 2 2) /\
  serial_get_queue 4 (mkRing [7; 8; 9; 10] 2 2)
  = (255, mkRing [7; 8; 9; 10] 2 2).
Proof.
  split; [reflexivity|].
  apply (pop_on_empty_ring 4). reflexivity.
Defined.

Lemma dispatcher_idle_noop_witness :
  let st := mkState (mkRing (replicate 128 0) 3 5) 4 1 0 224 17 [62; 32] in
  flag_receive_ready st = 0 /\
  SerialReceiveCommand 128 20 255 19 st = st.
Proof.
  intros st. split; [reflexivity|].
  apply (dispatcher_idle_noop 128 20 255 19). reflexivity.
Defined.

Lemma previous_command_update_witness :
  let st := receive 128 [115; 105; 116; 13]
              (mkState (mkRing (replicate 128 0) 0 0) 4 1 0 0 0 []) in
  flag_receive_ready st <> 0 /\
  last_bioloid_command (SerialReceiveCommand 128 20 255 19 st) = 4 /\
  0 <= bioloid_command (SerialReceiveCommand 128 20 255 19 st) < 20.
Proof.
  intros st.
  assert (Hflag : flag_receive_ready st <> 0)
    by (vm_compute; discriminate).
  split; [exact Hflag|].
  destruct (previous_command_update 128 20 255 19
              ltac:(lia) ltac:(lia) ltac:(lia)
              st 83 73 84 32
              (snd (read_command 128 (queue st))) Hflag eq_refl)
    as (Hmatch & _).
  destruct Hmatch as (Hlast & Hrange & _).
  { exists 17. split; [lia | reflexivity]. }
  split; [exact Hlast | exact Hrange].
Defined.

Lemma empty_frame_command_witness :
  ring_ok 128 (queue (serial_init 128)) /\
  exists q,
    read_command 128 (queue (receive 128 [13] (serial_init 128)))
    = (255, 32, 32, 32, q).
Proof.
  assert (Hok : ring_ok 128 (queue (serial_init 128)))
    by (unfold ring_ok; repeat split; vm_compute;
        (reflexivity || discriminate)).
  split; [exact Hok|].
  assert (Hsize : 1 <= 128 <= 256) by lia.
  assert (Hroom : 2 <= 128) by lia.
  exact (empty_frame_command 128 Hsize (serial_init 128) Hok eq_refl Hroom).
Defined.

Lemma motion_page_skips_non_digit_witness :
  ring_ok 128 (queue (serial_init 128)) /\
  current_motion_page
    (SerialReceiveCommand 128 20 255 19
       (receive 128 [77; 50; 88; 52; 13] (serial_init 128))) = 24.
Proof.
  assert (Hok : ring_ok 128 (queue (serial_init 128)))
    by (unfold ring_ok; repeat split; vm_compute;
        (reflexivity || discriminate)).
  split; [exact Hok|].
  assert (Hroom : 6 <= 128) by lia.
  destruct (motion_page_skips_non_digit 128 20 255 19
              ltac:(lia) ltac:(lia) ltac:(lia) ltac:(lia)
              (serial_init 128) Hok eq_refl Hroom) as (_ & Hpage).
  exact Hpage.
Defined.


Lemma motion_page_frames_witness :
  ring_ok 128 (queue (serial_init 128)) /\
  Forall (fun c => 48 <= c <= 57) [50; 52; 51] /\
  bioloid_command
    (SerialReceiveCommand 128 20 255 19
       (receive 128 [77; 50; 52; 51; 13] (serial_init 128))) = 19 /\
  current_motion_page
    (SerialReceiveCommand 128 20 255 19
       (receive 128 [77; 50; 52; 51; 13] (serial_init 128))) = 243.
Proof.
  assert (Hok : ring_ok 128 (queue (serial_init 128)))
    by (unfold ring_ok; repeat split; vm_compute;
        (reflexivity || discriminate)).
  assert (Hdigits : Forall (fun c => 48 <= c <= 57) [50; 52; 51])
    by (repeat constructor; lia).
  split; [exact Hok|]. split; [exact Hdigits|].
  destruct (motion_page_frames 128 20 255 19
              ltac:(lia) ltac:(lia) ltac:(lia) ltac:(lia)
              (serial_init 128) [50; 52; 51] Hok eq_refl ltac:(lia) Hdigits
              ltac:(simpl; lia))
    as ((Hcmd & Hpage & _) & _).
  split; [exact Hcmd | exact Hpage].
Defined.

(** *** Where the claims as stated fail *)

(** C4 as stated fails: the frame ['M999'] does not give motion page
    999; the 8-bit variable holds 231. *)
Lemma motion_page_999_wraps :
  let st' := SerialReceiveCommand 128 20 255 19
               (receive 128 [77; 57; 57; 57; 13] (serial_init 128)) in
  current_motion_page st' = 231 /\
  current_motion_page st' <> decimal (List.map (fun c => c - 48) [57; 57; 57]).
Proof. vm_compute. split; [reflexivity | discriminate]. Qed.

(** C5 as stated fails: on a silent line the terminator is echoed as
    three bytes, not as the two bytes CR, LF. *)
Lemma terminator_echo_has_third_byte :
  UDR1_sent (USART1_RX_vect 128 13 (serial_init 128)) = [13; 10; 32] /\
  UDR1_sent (USART1_RX_vect 128 13 (serial_init 128)) <> [13; 10].
Proof. vm_compute. split; [reflexivity | discriminate]. Qed.

(** *** The frames of the specification's test list *)

Example frame_M5 :
  current_motion_page
    (SerialReceiveCommand 128 20 255 19
       (receive 128 [77; 53; 13] (serial_init 128))) = 5.
Proof. vm_compute. reflexivity. Qed.

Example frame_M24 :
  current_motion_page
    (SerialReceiveCommand 128 20 255 19
       (receive 128 [77; 50; 52; 13] (serial_init 128))) = 24.
Proof. vm_compute. reflexivity. Qed.

Example frame_sit_lower_case :
  bioloid_command
    (SerialReceiveCommand 128 20 255 19
       (receive 128 (bytes_of_string "sit" ++ [13]) (serial_init 128))) = 17.
Proof. vm_compute. reflexivity. Qed.

Example frame_wf_both_cases :
  bioloid_command
    (SerialReceiveCommand 128 20 255 19
       (receive 128 (bytes_of_string "wf  " ++ [13]) (serial_init 128))) = 1 /\
  bioloid_command
    (SerialReceiveCommand 128 20 255 19
       (receive 128 (bytes_of_string "WF  " ++ [13]) (serial_init 128))) = 1.
Proof. vm_compute. split; reflexivity. Qed.

Example frame_ZZZZ_unknown :
  bioloid_command
    (SerialReceiveCommand 128 20 255 19
       (receive 128 (bytes_of_string "ZZZZ" ++ [13]) (serial_init 128))) = 255.
Proof. vm_compute. reflexivity. Qed.

(** Push [a, b, c], pop three times, on a ring whose indices wrap. *)
Example fifo_abc :
  fst (run 4 [Push 97; Push 98; Push 99; Pop; Pop; Pop]
           (mkRing (replicate 4 0) 3 3))
  = [Accepted 97; Accepted 98; Accepted 99; Popped 97; Popped 98; Popped 99].
Proof. vm_compute. reflexivity. Qed.

(** ** The further properties on concrete devices *)

Ltac ring_ok_here :=
  unfold ring_ok; repeat split; vm_compute; (reflexivity || discriminate).

Lemma serial_read_delivers_oldest_witness :
  let q := mkRing [10; 11; 12; 13; 14; 15; 16; 17] 6 1 in
  ring_ok 8 q /\
  fst (fst (serial_read 8 [0; 0; 0; 0] 2 q)) = 2 /\
  snd (fst (serial_read 8 [0; 0; 0; 0] 2 q)) = [16; 17; 0; 0] /\
  contents 8 (snd (serial_read 8 [0; 0; 0; 0] 2 q)) = [10].
Proof.
  intros q.
  assert (Hok : ring_ok 8 q) by ring_ok_here.
  assert (Hnum : 0 <= 2 <= Z.of_nat (length [0; 0; 0; 0])) by (simpl; lia).
  split; [exact Hok|].
  destruct (serial_read_delivers_oldest 8 ltac:(lia) [0; 0; 0; 0] 2 q Hok Hnum)
    as (A & B & _ & D).
  split; [exact A | split; [exact B | exact D]].
Defined.

Lemma serial_read_non_positive_witness :
  let q := mkRing [10; 11; 12; 13; 14; 15; 16; 17] 6 1 in
  ring_ok 8 q /\
  serial_read 8 [0; 0] (-1) q = (255, [0; 0], q).
Proof.
  intros q.
  assert (Hok : ring_ok 8 q) by ring_ok_here.
  split; [exact Hok|].
  exact (serial_read_non_positive 8 ltac:(lia) [0; 0] (-1) q Hok ltac:(lia)).
Defined.

Lemma push_then_serial_read_witness :
  let q := mkRing (replicate 8 0) 6 6 in
  ring_ok 8 q /\
  fst (serial_read 8 [9; 9; 9; 9] 3 (push_all 8 [1; 2; 3] q))
  = (3, [1; 2; 3; 9]).
Proof.
  intros q.
  assert (Hok : ring_ok 8 q) by ring_ok_here.
  split; [exact Hok|].
  destruct (push_then_serial_read 8 ltac:(lia) [1; 2; 3] [9; 9; 9; 9] q Hok
              eq_refl ltac:(simpl; lia) ltac:(simpl; lia)) as (A & _).
  exact A.
Defined.

Lemma std_getchar_oldest_witness :
  let q := mkRing [10; 11; 12; 13; 14; 15; 13; 17] 6 1 in
  ring_ok 8 q /\
  exists q', std_getchar 8 q = Some (10, q') /\ contents 8 q' = [17; 10].
Proof.
  intros q.
  assert (Hok : ring_ok 8 q) by ring_ok_here.
  split; [exact Hok|].
  destruct (std_getchar_oldest 8 ltac:(lia) q Hok) as (_ & Hget).
  destruct (Hget 13 [17; 10] eq_refl) as (q' & E & _ & Hc).
  exists q'. split; [exact E | exact Hc].
Defined.

Lemma received_bytes_in_ring_witness :
  ring_ok 4 (queue (serial_init 4)) /\
  contents 4 (queue (receive 4 [97; 98; 13; 99; 100] (serial_init 4)))
  = [97; 98; 255].
Proof.
  assert (Hok : ring_ok 4 (queue (serial_init 4))) by ring_ok_here.
  split; [exact Hok|].
  destruct (received_bytes_in_ring 4 ltac:(lia) [97; 98; 13; 99; 100]
              (serial_init 4) Hok) as (_ & A).
  exact A.
Defined.

Lemma no_carriage_return_in_ring_witness :
  ring_ok 8 (queue (serial_init 8)) /\
  Forall (fun b => b <> 13)
         (contents 8 (queue (receive 8 [97; 13; 98] (serial_init 8)))).
Proof.
  assert (Hok : ring_ok 8 (queue (serial_init 8))) by ring_ok_here.
  split; [exact Hok|].
  assert (Hfree : Forall (fun b => b <> 13)
                         (contents 8 (queue (serial_init 8))))
    by (vm_compute; constructor).
  destruct (no_carriage_return_in_ring 8 ltac:(lia) [97; 13; 98]
              (serial_init 8) Hok Hfree) as (A & _).
  exact A.
Defined.

Lemma interrupt_on_full_ring_witness :
  let st := mkState (mkRing [1; 2; 3; 0] 0 3) 0 0 0 0 0 [] in
  serial_get_qstate 4 (queue st) = 4 - 1 /\
  queue (USART1_RX_vect 4 13 st) = queue st /\
  flag_receive_ready (USART1_RX_vect 4 13 st) = 1.
Proof.
  intros st. split; [reflexivity|].
  destruct (interrupt_on_full_ring 4 13 st eq_refl) as (A & _ & C).
  split; [exact A | exact C].
Defined.

Lemma poll_takes_five_bytes_witness :
  let st := receive 128 [83; 84; 79; 80; 88; 89; 13] (serial_init 128) in
  ring_ok 128 (queue st) /\
  flag_receive_ready st <> 0 /\
  contents 128 (queue (SerialReceiveCommand 128 20 255 19 st)) = [89; 255].
Proof.
  intros st.
  assert (Hok : ring_ok 128 (queue st)) by ring_ok_here.
  assert (Hflag : flag_receive_ready st <> 0) by (vm_compute; discriminate).
  split; [exact Hok|]. split; [exact Hflag|].
  destruct (poll_takes_five_bytes 128 20 255 19 ltac:(lia) st Hok Hflag)
    as (_ & A).
  exact A.
Defined.

Lemma ring_after_frame_witness :
  ring_ok 128 (queue (serial_init 128)) /\
  contents 128
    (queue (SerialReceiveCommand 128 20 255 19
              (receive 128 ([83; 84; 79; 80; 88; 89] ++ [13])
                 (serial_init 128))))
  = [89; 255].
Proof.
  assert (Hok : ring_ok 128 (queue (serial_init 128))) by ring_ok_here.
  split; [exact Hok|].
  destruct (ring_after_frame 128 20 255 19 ltac:(lia)
              [83; 84; 79; 80; 88; 89] (serial_init 128) Hok eq_refl
              ltac:(repeat constructor; lia) ltac:(simpl; lia))
    as (A & _).
  exact A.
Defined.

Lemma commands_are_case_insensitive_witness :
  ring_ok 128 (queue (serial_init 128)) /\
  same_commands
    (SerialReceiveCommand 128 20 255 19
       (receive 128 ([115; 105; 116] ++ [13]) (serial_init 128)))
    (SerialReceiveCommand 128 20 255 19
       (receive 128 ([83; 105; 84] ++ [13]) (serial_init 128))).
Proof.
  assert (Hok : ring_ok 128 (queue (serial_init 128))) by ring_ok_here.
  split; [exact Hok|].
  apply (commands_are_case_insensitive 128 20 255 19 ltac:(lia)
           [115; 105; 116] [83; 105; 84] (serial_init 128) Hok eq_refl).
  - repeat constructor; lia.
  - repeat constructor; lia.
  - simpl; lia.
  - reflexivity.
Defined.

Lemma trailing_blank_is_immaterial_witness :
  ring_ok 128 (queue (serial_init 128)) /\
  same_commands
    (SerialReceiveCommand 128 20 255 19
       (receive 128 ([83; 73; 84] ++ [13]) (serial_init 128)))
    (SerialReceiveCommand 128 20 255 19
       (receive 128 (([83; 73; 84] ++ [32]) ++ [13]) (serial_init 128))).
Proof.
  assert (Hok : ring_ok 128 (queue (serial_init 128))) by ring_ok_here.
  split; [exact Hok|].
  apply (trailing_blank_is_immaterial 128 20 255 19 ltac:(lia)
           [83; 73; 84] (serial_init 128) Hok eq_refl).
  - repeat constructor; lia.
  - simpl; lia.
  - lia.
Defined.

Lemma table_commands_recognised_witness :
  ring_ok 128 (queue (serial_init 128)) /\
  bioloid_command
    (SerialReceiveCommand 128 20 255 19
       (receive 128 (command_string 17 ++ [13]) (serial_init 128))) = 17.
Proof.
  assert (Hok : ring_ok 128 (queue (serial_init 128))) by ring_ok_here.
  split; [exact Hok|].
  destruct (table_commands_recognised 128 20 255 19
              ltac:(lia) ltac:(lia) ltac:(lia) 17 (serial_init 128)
              Hok eq_refl ltac:(lia) ltac:(lia)) as (A & _).
  exact A.
Defined.

Lemma motion_pages_untouched_witness :
  let st := receive 128 [87; 70; 13]
              (mkState (mkRing (replicate 128 0) 0 0) 4 1 0 224 17 []) in
  flag_receive_ready st <> 0 /\
  current_motion_page (SerialReceiveCommand 128 20 255 19 st) = 224 /\
  last_motion_page (SerialReceiveCommand 128 20 255 19 st) = 17.
Proof.
  intros st.
  assert (Hflag : flag_receive_ready st <> 0) by (vm_compute; discriminate).
  split; [exact Hflag|].
  apply (motion_pages_untouched 128 20 255 19 st 87 70 32 32
           (snd (read_command 128 (queue st))) Hflag eq_refl).
  intros [E _]. discriminate E.
Defined.

Lemma line_feed_follows_carriage_return_witness :
  lf_follows_cr 0 (UDR1_sent (serial_init 128)) = true /\
  lf_follows_cr 0
    (UDR1_sent
       (operate 128 20 255 19 [Rx 10; Rx 119; Rx 102; Rx 13; Poll; Rx 10]
          (serial_init 128))) = true.
Proof.
  split; [reflexivity|].
  apply (line_feed_follows_carriage_return 128 20 255 19). reflexivity.
Defined.

Lemma ring_stays_well_formed_witness :
  ring_ok 4 (queue (serial_init 4)) /\
  ring_ok 4
    (queue
       (operate 4 20 255 19
          [Rx 119; Rx 102; Rx 13; Rx 120; Poll; Rx 115; Rx 13; Poll]
          (serial_init 4))).
Proof.
  assert (Hok : ring_ok 4 (queue (serial_init 4))) by ring_ok_here.
  split; [exact Hok|].
  destruct (ring_stays_well_formed 4 20 255 19 ltac:(lia)
              [Rx 119; Rx 102; Rx 13; Rx 120; Poll; Rx 115; Rx 13; Poll]
              (serial_init 4) Hok) as (A & _).
  exact A.
Defined.

Lemma serial_init_resets_witness :
  let st := mkState (mkRing [83; 84; 79; 80; 255; 0; 0; 0] 1 5)
                    7 3 1 224 17 [62; 32] in
  Z.of_nat (length (gbSerialBuffer (queue st))) = 8 /\
  ring_ok 8 (queue (serial_init_call st)) /\
  contents 8 (queue (serial_init_call st)) = [] /\
  SerialReceiveCommand 8 20 255 19 (serial_init_call st)
  = serial_init_call st.
Proof.
  intros st. split; [reflexivity|].
  destruct (serial_init_resets 8 20 255 19 ltac:(lia) st eq_refl)
    as (A & _ & C & _ & _ & _ & G & _).
  split; [exact A | split; [exact C | exact G]].
Defined.
